(** * TeleThreaty: a shallow embedding of [telethreaty.py]

    The development follows the methods of class [ThreatyBot]:
    - the file classifier ([get_file_category] over [file_categories]),
    - the message projector (the loop of [get_complete_message_history]),
    - the bulk operator ([delete_messages_bulk]),
    - the remote-call wrappers and their exception handling,
    - the update poller ([get_all_updates]) and [monitor_messages].

    Python integers are [Z].  Python strings are Rocq strings, that is
    sequences of code points below 256; [str.lower] is given on that range.
    An update or a message handed out by the platform is a record
    carrying the keys the code reads; [option] marks the keys the code
    reads with [.get] or tests with [in].  The answers that the wrappers
    pass on as they are, are values of [json].  A call that can raise
    yields an [outcome]; the remote platform is a parameter. *)

From Stdlib Require Import ZArith List String Ascii Bool Lia.
From Stdlib Require Import DecimalString Permutation Sorted FinFun.
From Stdlib Require DecimalZ DecimalPos.
Import ListNotations.

#[local] Set Warnings "-register-all".
#[local] Open Scope string_scope.
#[local] Open Scope Z_scope.

(* ================================================================== *)
(** * Part I. The model                                                 *)
(* ================================================================== *)

(** ** Python built-ins on strings *)

Module PyStr.

(** [len(s)] *)
Definition len (s : string) : Z := Z.of_nat (String.length s).

(** [s.startswith(c)] for a one-character prefix [c]. *)
Definition startswith (s : string) (c : ascii) : bool :=
  match s with
  | EmptyString => false
  | String a _ => Ascii.eqb a c
  end.

(** [str.lower] on one code point: [A-Z] and the Latin-1 capitals
    U+00C0..U+00DE (U+00D7, the multiplication sign, has no case). *)
Definition lower_char (c : ascii) : ascii :=
  let n := N_of_ascii c in
  if ((65 <=? n) && (n <=? 90))%N then ascii_of_N (n + 32)
  else if ((192 <=? n) && (n <=? 222) && negb (n =? 215))%N
       then ascii_of_N (n + 32)
       else c.

Fixpoint lower (s : string) : string :=
  match s with
  | EmptyString => EmptyString
  | String a s' => String (lower_char a) (lower s')
  end.

(** [s.rfind(c)]: the highest index holding [c], or [-1]. *)
Fixpoint rfind_from (c : ascii) (s : string) (i found : Z) : Z :=
  match s with
  | EmptyString => found
  | String a s' => rfind_from c s' (i + 1) (if Ascii.eqb a c then i else found)
  end.

Definition rfind (s : string) (c : ascii) : Z := rfind_from c s 0 (-1).

(** [s[i:i+1]], the empty string when [i] is out of range. *)
Definition char_at (s : string) (i : Z) : string :=
  if i <? 0 then "" else substring (Z.to_nat i) 1 s.

(** [s[:i]] and [s[i:]] for [0 <= i]. *)
Definition slice_to (s : string) (i : Z) : string :=
  substring 0 (Z.to_nat i) s.

Definition slice_from (s : string) (i : Z) : string :=
  substring (Z.to_nat i) (String.length s - Z.to_nat i) s.

(** [str(n)] for an integer. *)
Definition str_of_int (n : Z) : string := NilZero.string_of_int (Z.to_int n).

End PyStr.

(** ** [os.path.splitext] (posixpath over [genericpath._splitext])

    The standard library's function, transcribed: the extension starts at
    the last dot of the last path component, unless that component has
    nothing but dots before it. *)

Module OsPath.
Import PyStr.

(** The [while filenameIndex < dotIndex] loop: [true] as soon as a
    character other than the dot is met ([n] bounds the iterations
    left). *)
Fixpoint leading_dots_end (n : nat) (p : string) (filenameIndex dotIndex : Z)
  : bool :=
  match n with
  | O => false
  | S n' =>
      if filenameIndex <? dotIndex then
        if negb (String.eqb (char_at p filenameIndex) ".") then true
        else leading_dots_end n' p (filenameIndex + 1) dotIndex
      else false
  end.

Definition splitext (p : string) : string * string :=
  let sepIndex := rfind p "/" in
  let dotIndex := rfind p "." in
  if (sepIndex <? dotIndex)
     && leading_dots_end (Z.to_nat (dotIndex - (sepIndex + 1))) p
          (sepIndex + 1) dotIndex
  then (slice_to p dotIndex, slice_from p dotIndex)
  else (p, "").

End OsPath.

(** ** File classifier *)

(** [self.file_categories]: a dict, iterated in insertion order. *)
Definition file_categories : list (string * list string) :=
  [ ("archive", [".zip"; ".7z"; ".rar"; ".tar"; ".gz"; ".gzip"; ".bz2"; ".xz";
                 ".lzh"; ".iso"]);
    ("document", [".pdf"; ".doc"; ".docx"; ".txt"; ".rtf"; ".odt"; ".pages"]);
    ("code", [".py"; ".js"; ".java"; ".cpp"; ".c"; ".html"; ".css"; ".php";
              ".rb"; ".go"; ".rs"]);
    ("spreadsheet", [".xls"; ".xlsx"; ".csv"; ".ods"; ".numbers"]);
    ("presentation", [".ppt"; ".pptx"; ".key"; ".odp"]);
    ("image", [".jpg"; ".jpeg"; ".png"; ".gif"; ".bmp"; ".tiff"; ".webp";
               ".svg"]);
    ("audio", [".mp3"; ".wav"; ".ogg"; ".flac"; ".m4a"; ".aac"]);
    ("video", [".mp4"; ".avi"; ".mov"; ".wmv"; ".flv"; ".webm"; ".mkv"]);
    ("executable", [".exe"; ".msi"; ".dmg"; ".pkg"; ".deb"; ".rpm"; ".apk"]);
    ("config", [".json"; ".xml"; ".yaml"; ".yml"; ".ini"; ".conf"; ".cfg"]) ].

(** [ext in extensions] *)
Definition ext_in (ext : string) (extensions : list string) : bool :=
  existsb (String.eqb ext) extensions.

(** The [for category, extensions in ...items()] loop with its early
    [return category]; [None] when the loop runs to its end. *)
Fixpoint first_category (ext : string) (items : list (string * list string))
  : option string :=
  match items with
  | [] => None
  | (category, extensions) :: rest =>
      if ext_in ext extensions then Some category
      else first_category ext rest
  end.

Definition get_file_category (filename : string) : string :=
  if String.eqb filename "" then "unknown"
  else
    let ext := PyStr.lower (snd (OsPath.splitext filename)) in
    match first_category ext file_categories with
    | Some category => category
    | None => "other"
    end.

(** The values [get_file_category] can return. *)
Definition category_names : list string :=
  map fst file_categories ++ ["other"; "unknown"].

(** ** Data model *)

Record Sender := mkSender {
  sender_id : Z;
  is_bot : bool
}.

Record Chat := mkChat {
  chat_id : Z;
  chat_type : string
}.

(** A message as the projector reads it: ['chat'] and ['date'] are
    subscripted, ['from'] and ['text'] are read with [.get], and
    ['reply_to_message'] is tested with [in]. *)
Inductive Message := mkMessage {
  message_id : Z;
  chat : Chat;
  from : option Sender;
  date : Z;
  text : option string;
  reply_to_message : option Message
}.

(** An update.  [None] stands for a key that is missing and for one that
    holds an empty object: both are falsy. *)
Record Update := mkUpdate {
  update_id : Z;
  message : option Message;
  channel_post : option Message
}.

Inductive Direction := SENT | RECEIVED.

(** The dict appended to [messages]. *)
Record ProjectedMessageRecord := mkRecord {
  rec_update_id : Z;
  rec_message : Message;
  timestamp : Z;
  rec_is_bot : bool;
  direction : Direction
}.

(** The [chat_id] argument: [None], an integer, or a string (the value
    read from the environment file is a string). *)
Inductive ChatId := ChatIdInt (n : Z) | ChatIdStr (s : string).

(** Truth value of the argument in [if chat_id and ...]. *)
Definition chat_id_truthy (chat_id : option ChatId) : bool :=
  match chat_id with
  | None => false
  | Some (ChatIdInt n) => negb (n =? 0)
  | Some (ChatIdStr s) => negb (String.eqb s "")
  end.

(** [str(chat_id)] *)
Definition str_of_chat_id (c : ChatId) : string :=
  match c with
  | ChatIdInt n => PyStr.str_of_int n
  | ChatIdStr s => s
  end.

(** ** Message projector *)

(** [update.get('message', {}) or update.get('channel_post', {})] *)
Definition embedded_message (update : Update) : option Message :=
  match message update with
  | Some m => Some m
  | None => channel_post update
  end.

(** [chat_id and str(message['chat']['id']) != str(chat_id)] *)
Definition chat_mismatch (filter : option ChatId) (m : Message) : bool :=
  match filter with
  | Some c =>
      chat_id_truthy filter
      && negb (String.eqb (PyStr.str_of_int (chat_id (chat m)))
                          (str_of_chat_id c))
  | None => false
  end.

(** [message.get('text', '').startswith('/')] *)
Definition is_command (m : Message) : bool :=
  PyStr.startswith (match text m with Some t => t | None => "" end) "/".

(** ['reply_to_message' in message] *)
Definition is_reply (m : Message) : bool :=
  match reply_to_message m with Some _ => true | None => false end.

(** [message['chat']['type'] == 'private'] *)
Definition is_private (m : Message) : bool :=
  String.eqb (chat_type (chat m)) "private".

Definition is_visible (m : Message) : bool :=
  is_command m || is_reply m || is_private m.

(** [message.get('from', {}).get('is_bot', False)] *)
Definition from_is_bot (m : Message) : bool :=
  match from m with Some s => is_bot s | None => false end.

Definition make_record (update : Update) (m : Message)
  : ProjectedMessageRecord :=
  {| rec_update_id := update_id update;
     rec_message := m;
     timestamp := date m;
     rec_is_bot := from_is_bot m;
     direction := if from_is_bot m then SENT else RECEIVED |}.

(** One turn of the [for update in all_updates] loop: [None] for each of
    the three [continue]s, the appended record otherwise. *)
Definition project_update (filter : option ChatId) (can_read_all : bool)
           (update : Update) : option ProjectedMessageRecord :=
  match embedded_message update with
  | None => None
  | Some m =>
      if chat_mismatch filter m then None
      else if negb can_read_all && negb (is_visible m) then None
      else Some (make_record update m)
  end.

(** The [for update in all_updates] loop of
    [get_complete_message_history], the projection of the updates:
    [all_updates] and [can_read_all] are what the two remote lookups of
    the method have supplied. *)
Fixpoint project_messages (filter : option ChatId)
         (can_read_all : bool) (all_updates : list Update)
  : list ProjectedMessageRecord :=
  match all_updates with
  | [] => []
  | update :: rest =>
      match project_update filter can_read_all update with
      | Some r => r :: project_messages filter can_read_all rest
      | None => project_messages filter can_read_all rest
      end
  end.

(** The privacy-mode visibility filter on its own, over messages. *)
Definition visibility_filter (ms : list Message) : list Message :=
  filter is_visible ms.

(** A projected record offered to the projector again, as an update. *)
Definition update_of_record (r : ProjectedMessageRecord) : Update :=
  {| update_id := rec_update_id r;
     message := Some (rec_message r);
     channel_post := None |}.

(** The updates that carry a message, in either field. *)
Definition has_message (update : Update) : bool :=
  match embedded_message update with Some _ => true | None => false end.

(** Sample messages: a group chat, a private chat. *)
Definition group_chat : Chat := {| chat_id := -1001; chat_type := "group" |}.
Definition private_chat : Chat := {| chat_id := 42; chat_type := "private" |}.

Definition text_message (c : Chat) (t : string) : Message :=
  {| message_id := 1; chat := c; from := None; date := 1700000000;
     text := Some t; reply_to_message := None |}.

Definition photo_message (c : Chat) : Message :=
  {| message_id := 2; chat := c; from := None; date := 1700000001;
     text := None; reply_to_message := None |}.

Definition update_with (n : Z) (m : Message) : Update :=
  {| update_id := n; message := Some m; channel_post := None |}.

(** ** Bulk operator *)

(** [range(count)] *)
Definition range (count : Z) : list Z :=
  map Z.of_nat (seq 0 (Z.to_nat count)).

(** One started process: [_delete_single_message(chat_id, message_id)],
    which performs one [deleteMessage] call. *)
Record DeleteCall := mkDeleteCall {
  del_chat_id : ChatId;
  del_message_id : Z
}.

(** [delete_messages_bulk]: the processes, in the order they are started. *)
Definition delete_messages_bulk (chat_id : ChatId)
           (start_message_id count : Z) : list DeleteCall :=
  map (fun i => {| del_chat_id := chat_id;
                   del_message_id := start_message_id - i |})
      (range count).

(** The processes are not synchronised: their calls reach the platform in
    any order, each process contributing its one call, and the caller
    joins them all. *)
Definition issued_in_some_order (processes calls : list DeleteCall) : Prop :=
  Permutation processes calls.

(** ** Exceptions and results *)

Inductive exn :=
| RequestException (msg : string)   (* connection errors, timeouts *)
| JSONDecodeError (msg : string)    (* [response.json()] on a bad body *)
| KeyError (key : string)
| TypeError (msg : string)
| IndexError (msg : string)
| AttributeError (msg : string)
| OSError (msg : string)
| KeyboardInterrupt.

(** [isinstance(e, Exception)]: [KeyboardInterrupt] derives from
    [BaseException] only. *)
Definition is_Exception (e : exn) : bool :=
  match e with
  | KeyboardInterrupt => false
  | _ => true
  end.

(** [str(e)] *)
Definition str_of_exn (e : exn) : string :=
  match e with
  | RequestException msg | JSONDecodeError msg | TypeError msg
  | IndexError msg | AttributeError msg | OSError msg => msg
  | KeyError key => "'" ++ key ++ "'"
  | KeyboardInterrupt => ""
  end.

Inductive outcome (A : Type) :=
| Returns (a : A)
| Raises (e : exn).
Arguments Returns {A} a.
Arguments Raises {A} e.

Definition bind {A B : Type} (x : outcome A) (k : A -> outcome B)
  : outcome B :=
  match x with
  | Returns a => k a
  | Raises e => Raises e
  end.

Notation "x <- c1 ;; c2" := (bind c1 (fun x => c2))
  (at level 61, c1 at next level, right associativity).

(** [try: body  except Exception as e: handler e] *)
Definition try_except_Exception {A : Type} (body : outcome A)
           (handler : exn -> outcome A) : outcome A :=
  match body with
  | Returns a => Returns a
  | Raises e => if is_Exception e then handler e else Raises e
  end.

(** [try: body  except KeyboardInterrupt: handler] *)
Definition try_except_KeyboardInterrupt {A : Type} (body : outcome A)
           (handler : outcome A) : outcome A :=
  match body with
  | Raises KeyboardInterrupt => handler
  | other => other
  end.

(** ** Decoded JSON *)

Inductive json :=
| JNull
| JBool (b : bool)
| JInt (n : Z)
| JStr (s : string)
| JList (items : list json)
| JDict (items : list (string * json)).

Fixpoint assoc (key : string) (items : list (string * json)) : option json :=
  match items with
  | [] => None
  | (k, v) :: rest => if String.eqb k key then Some v else assoc key rest
  end.

(** [j[key]] *)
Definition subscript (j : json) (key : string) : outcome json :=
  match j with
  | JDict items =>
      match assoc key items with
      | Some v => Returns v
      | None => Raises (KeyError key)
      end
  | _ => Raises (TypeError "indices must be integers")
  end.

(** [j.get(key, default)]; only a dict has the method. *)
Definition dict_get (j : json) (key : string) (default : json)
  : outcome json :=
  match j with
  | JDict items =>
      Returns (match assoc key items with Some v => v | None => default end)
  | _ => Raises (AttributeError "object has no attribute 'get'")
  end.

(** Truth value of a decoded value. *)
Definition truthy (j : json) : bool :=
  match j with
  | JNull => false
  | JBool b => b
  | JInt n => negb (n =? 0)
  | JStr s => negb (String.eqb s "")
  | JList items => match items with [] => false | _ => true end
  | JDict items => match items with [] => false | _ => true end
  end.

(** [{'ok': False, 'error': msg}] *)
Definition error_result (msg : string) : json :=
  JDict [("ok", JBool false); ("error", JStr msg)].

(** ** The remote platform *)

Inductive http_verb := GET | POST.

(** What a call of [requests.get] or [requests.post] sends. *)
Record request := mkRequest {
  verb : http_verb;
  url : string;
  data : list (string * string);
  upload : option (string * string)
}.

(** A streamed response, as [download_file] reads it. *)
Record http_response := mkHttpResponse {
  status_code : Z;
  headers : list (string * string);
  content : list string
}.

(** A decoded answer of the [getUpdates] endpoint. *)
Record response := mkResponse {
  ok : bool;
  result : list Update
}.

(** One request to [getUpdates] and what came back.  The code keeps no
    such log; the model records it to speak about the requests made. *)
Record exchange := mkExchange {
  req_offset : option Z;
  req_limit : option Z;
  reply : outcome response
}.

(** The local variables of the polling loop, the state of the remote
    endpoint, and the log of requests. *)
Record poll_state (Source : Type) := mkPollState {
  source : Source;
  offset : Z;
  all_updates : list Update;
  trace : list exchange
}.
Arguments mkPollState {Source}.
Arguments source {Source}.
Arguments offset {Source}.
Arguments all_updates {Source}.
Arguments trace {Source}.

(** How the [while True] loop was left. *)
Inductive loop_exit := ByBreak | ByException (e : exn).

(** What [get_all_updates] hands to its caller, with the final state. *)
Record poll_run (Source : Type) := mkPollRun {
  returned : outcome (list Update);
  final : poll_state Source
}.
Arguments mkPollRun {Source}.
Arguments returned {Source}.
Arguments final {Source}.

(** [len(l)] *)
Definition len {A : Type} (l : list A) : Z := Z.of_nat (List.length l).

(** [l[-1]] *)
Definition last_item {A : Type} (l : list A) : outcome A :=
  match rev l with
  | x :: _ => Returns x
  | [] => Raises (IndexError "list index out of range")
  end.

(** [sub in s] *)
Definition contains (s sub : string) : bool :=
  match String.index 0 sub s with Some _ => true | None => false end.

Definition file_type_methods : list (string * string) :=
  [ ("document", "sendDocument"); ("photo", "sendPhoto");
    ("audio", "sendAudio"); ("video", "sendVideo");
    ("animation", "sendAnimation"); ("voice", "sendVoice");
    ("video_note", "sendVideoNote") ].

Fixpoint method_of (file_type : string) (table : list (string * string))
  : outcome string :=
  match table with
  | [] => Raises (KeyError file_type)
  | (k, v) :: rest => if String.eqb k file_type then Returns v
                      else method_of file_type rest
  end.

Section Platform.

Variable token : string.

(** [requests.get]/[requests.post] followed by [response.json()]: the
    decoded body, or the exception either of them raises. *)
Variable requests_json : request -> outcome json.

(** [requests.get(download_url, stream=True)] *)
Variable requests_get_stream : string -> outcome http_response.

(** The body of [if response.status_code == 200] in [download_file]:
    naming the file, creating the category directory and writing the
    chunks; the [filepath], or the exception the file system raises. *)
Variable write_download :
  http_response -> string -> option string -> outcome string.

(** [mimetypes.guess_type(path)[0]], [open(path, 'rb')], and the
    conversion of a decoded value inside an f-string. *)
Variable guess_type : string -> option string.
Variable open_file : string -> outcome string.
Variable format_str : json -> string.

(** The [getUpdates] endpoint: a state machine answering a request with
    the given [offset] and [limit] parameters (when sent).  The answer is
    the decoded body, read into the data model; [Raises e] is an exception
    of the request, of the decoding, or of the reading of a body that
    lacks a key. *)
Variable Source : Type.
Variable getUpdates :
  Source -> option Z -> option Z -> outcome response * Source.

Definition base_url : string := "https://api.telegram.org/bot" ++ token.

(** The body shared by the wrappers:
    [try: return requests...json()
     except Exception as e: return {'ok': False, 'error': str(e)}] *)
Definition api_call (r : request) : outcome json :=
  try_except_Exception (requests_json r)
    (fun e => Returns (error_result (str_of_exn e))).

Definition get_bot_info : outcome json :=
  api_call {| verb := GET; url := base_url ++ "/getMe"; data := [];
              upload := None |}.

(** [self.get_bot_info()] followed by
    [bot_info.get('result', {}).get('can_read_all_group_messages', False)],
    as a truth value. *)
Definition can_read_all_group_messages : outcome bool :=
  bot_info <- get_bot_info ;;
  bot_data <- dict_get bot_info "result" (JDict []) ;;
  flag <- dict_get bot_data "can_read_all_group_messages" (JBool false) ;;
  Returns (truthy flag).

Definition chat_call (v : http_verb) (endpoint : string) (chat_id : ChatId)
  : outcome json :=
  api_call {| verb := v; url := base_url ++ endpoint;
              data := [("chat_id", str_of_chat_id chat_id)];
              upload := None |}.

Definition get_chat_info := chat_call POST "/getChat".

Definition get_chat_member (chat_id : ChatId) (user_id : Z) : outcome json :=
  api_call {| verb := POST; url := base_url ++ "/getChatMember";
              data := [("chat_id", str_of_chat_id chat_id);
                       ("user_id", PyStr.str_of_int user_id)];
              upload := None |}.

Definition get_chat_administrators := chat_call POST "/getChatAdministrators".
Definition get_chat_member_count := chat_call POST "/getChatMemberCount".
Definition get_my_commands := chat_call GET "/getMyCommands".
Definition get_my_default_admin_rights :=
  chat_call GET "/getMyDefaultAdministratorRights".

Definition send_message (chat_id : ChatId) (text : string) : outcome json :=
  api_call {| verb := POST; url := base_url ++ "/sendMessage";
              data := [("chat_id", str_of_chat_id chat_id); ("text", text)];
              upload := None |}.

Definition delete_message (chat_id : ChatId) (message_id : Z)
  : outcome json :=
  api_call {| verb := POST; url := base_url ++ "/deleteMessage";
              data := [("chat_id", str_of_chat_id chat_id);
                       ("message_id", PyStr.str_of_int message_id)];
              upload := None |}.

Definition get_file_download_url (file_id : string)
  : outcome (option string) :=
  try_except_Exception
    (data <- requests_json {| verb := GET; url := base_url ++ "/getFile";
                              data := [("file_id", file_id)];
                              upload := None |} ;;
     is_ok <- subscript data "ok" ;;
     if truthy is_ok then
       res <- subscript data "result" ;;
       file_path <- subscript res "file_path" ;;
       Returns (Some ("https://api.telegram.org/file/bot" ++ token ++ "/"
                      ++ format_str file_path))
     else Returns None)
    (fun _ => Returns None).

Definition download_file (file_id : string) (filename : option string)
  : outcome (option string) :=
  download_url <- get_file_download_url file_id ;;
  match download_url with
  | None => Returns None
  | Some u =>
      if String.eqb u "" then Returns None
      else
        try_except_Exception
          (response <- requests_get_stream u ;;
           if status_code response =? 200 then
             filepath <- write_download response file_id filename ;;
             Returns (Some filepath)
           else Returns None)
          (fun _ => Returns None)
  end.

Definition send_file (chat_id : ChatId) (file_path caption : string)
  : outcome json :=
  try_except_Exception
    (let file_type :=
       match guess_type file_path with
       | Some mime_type =>
           if contains mime_type "audio" then "audio"
           else if contains mime_type "video" then "video"
           else if contains mime_type "image" then "photo"
           else "document"
       | None => "document"
       end in
     method <- method_of file_type file_type_methods ;;
     file <- open_file file_path ;;
     requests_json {| verb := POST; url := base_url ++ "/" ++ method;
                      data := [("chat_id", str_of_chat_id chat_id);
                               ("caption", caption)];
                      upload := Some (file_type, file) |})
    (fun e => Returns (error_result (str_of_exn e))).

(** *** Update poller *)

(** One turn of the loop of [get_all_updates]: the state after it, and
    how the loop was left if it was. *)
Definition poll_step (limit : Z) (st : poll_state Source)
  : poll_state Source * option loop_exit :=
  let lim := Z.min 100 (limit - len (all_updates st)) in
  let '(r, src') := getUpdates (source st) (Some (offset st)) (Some lim) in
  let log := (trace st ++ [ {| req_offset := Some (offset st);
                               req_limit := Some lim;
                               reply := r |} ])%list in
  match r with
  | Raises e =>
      (mkPollState src' (offset st) (all_updates st) log,
       Some (ByException e))
  | Returns data =>
      if negb (ok data) || (len (result data) =? 0) then
        (mkPollState src' (offset st) (all_updates st) log, Some ByBreak)
      else
        let batch_updates := result data in
        let extended := (all_updates st ++ batch_updates)%list in
        match last_item batch_updates with
        | Raises e =>
            (mkPollState src' (offset st) extended log,
             Some (ByException e))
        | Returns last_update =>
            let st' := mkPollState src' (update_id last_update + 1)
                                   extended log in
            if (limit <=? len extended) || (len batch_updates <? 100)
            then (st', Some ByBreak)
            else (st', None)
        end
  end.

Fixpoint poll_loop (fuel : nat) (limit : Z) (st : poll_state Source)
  : option (poll_state Source * loop_exit) :=
  match fuel with
  | O => None
  | S fuel' =>
      match poll_step limit st with
      | (st', Some how) => Some (st', how)
      | (st', None) => poll_loop fuel' limit st'
      end
  end.

(** The [try] statement of [get_all_updates] and the [return] after
    it.  The loop adds at least one update per turn it survives, so
    [limit] turns and one more are enough. *)
Definition poll_updates (limit offset : Z) (src : Source)
  : option (poll_run Source) :=
  match poll_loop (S (Z.to_nat limit)) limit (mkPollState src offset [] [])
  with
  | None => None
  | Some (st, ByBreak) => Some (mkPollRun (Returns (all_updates st)) st)
  | Some (st, ByException e) =>
      Some (mkPollRun (if is_Exception e then Returns (all_updates st)
                       else Raises e) st)
  end.

(** [get_all_updates(limit, offset)]: the lookup of the bot's
    capabilities, whose value only decides what is printed, then the
    polling. *)
Definition get_all_updates (limit offset : Z) (src : Source)
  : option (poll_run Source) :=
  match can_read_all_group_messages with
  | Raises e => Some (mkPollRun (Raises e) (mkPollState src offset [] []))
  | Returns _ => poll_updates limit offset src
  end.

(** [get_complete_message_history(chat_id, limit)]: the updates are
    fetched from offset 0, the capability is looked up, and the loop
    projects. *)
Definition get_complete_message_history (chat_id : option ChatId)
           (limit : Z) (src : Source)
  : option (outcome (list ProjectedMessageRecord)) :=
  match get_all_updates limit 0 src with
  | None => None
  | Some fetched =>
      Some (all_updates <- returned fetched ;;
            can_read_all <- can_read_all_group_messages ;;
            Returns (project_messages chat_id can_read_all all_updates))
  end.

(** *** Live monitoring *)

(** The [for update in data['result']] loop of [monitor_messages]. *)
Definition advance_offset (offset : option Z) (updates : list Update)
  : option Z :=
  fold_left (fun _ update => Some (update_id update + 1)) updates offset.

(** The [while True] loop of [monitor_messages]; it ends with an
    exception only, [None] is fuel running out. *)
Fixpoint monitor_loop (fuel : nat) (src : Source) (offset : option Z)
  : option exn :=
  match fuel with
  | O => None
  | S fuel' =>
      let sent := match offset with
                  | Some o => if o =? 0 then None else Some o
                  | None => None
                  end in
      match getUpdates src sent None with
      | (Raises e, _) => Some e
      | (Returns data, src') =>
          monitor_loop fuel' src'
            (if ok data && negb (len (result data) =? 0)
             then advance_offset offset (result data)
             else offset)
      end
  end.

Definition monitor_messages (fuel : nat) (src : Source)
  : option (outcome unit) :=
  match can_read_all_group_messages with
  | Raises e => Some (Raises e)
  | Returns _ =>
      match monitor_loop fuel src None with
      | None => None
      | Some e => Some (try_except_KeyboardInterrupt (Raises e) (Returns tt))
      end
  end.

End Platform.

Arguments poll_step {Source}.
Arguments poll_loop {Source}.
Arguments poll_updates {Source}.
Arguments get_all_updates token requests_json {Source}.
Arguments get_complete_message_history token requests_json {Source}.
Arguments monitor_loop {Source}.
Arguments monitor_messages token requests_json {Source}.

(** ** Mock sources *)

(** A scripted source: the replies to the successive requests, whatever
    their parameters; once the script is used up every request is
    answered with an empty page. *)
Definition scripted (script : list (outcome response))
           (offset limit : option Z) : outcome response * list (outcome response) :=
  match script with
  | [] => (Returns {| ok := true; result := [] |}, [])
  | r :: rest => (r, rest)
  end.

(** A queue of pending updates served as the platform does: those whose
    id is at least [offset], at most [limit] of them (100 when no limit is
    sent); the queue itself is kept. *)
Definition queue (pending : list Update) (offset limit : option Z)
  : outcome response * list Update :=
  let fresh := match offset with
               | Some o => filter (fun u => o <=? update_id u) pending
               | None => pending
               end in
  let n := match limit with Some l => Z.to_nat l | None => 100%nat end in
  (Returns {| ok := true; result := firstn n fresh |}, pending).

(** A network that is down: every request raises [e]. *)
Definition down {Q R : Type} (e : exn) (_ : Q) : outcome R := Raises e.

Definition down_source (e : exn) (_ : unit) (offset limit : option Z)
  : outcome response * unit := (Raises e, tt).

(** [count] updates without a message, with ids [first], [first + 1], ... *)
Definition page (first : Z) (count : nat) : list Update :=
  map (fun i => {| update_id := first + Z.of_nat i; message := None;
                   channel_post := None |}) (seq 0 count).

Definition ok_page (updates : list Update) : outcome response :=
  Returns {| ok := true; result := updates |}.

(** ** The remote-call operations, as one family *)

Inductive remote_call :=
| Call_get_bot_info
| Call_get_chat_info (chat_id : ChatId)
| Call_get_chat_member (chat_id : ChatId) (user_id : Z)
| Call_get_chat_administrators (chat_id : ChatId)
| Call_get_chat_member_count (chat_id : ChatId)
| Call_get_my_commands (chat_id : ChatId)
| Call_get_my_default_admin_rights (chat_id : ChatId)
| Call_send_message (chat_id : ChatId) (text : string)
| Call_delete_message (chat_id : ChatId) (message_id : Z)
| Call_send_file (chat_id : ChatId) (file_path caption : string)
| Call_get_file_download_url (file_id : string)
| Call_download_file (file_id : string) (filename : option string)
| Call_get_all_updates (limit offset : Z)
| Call_monitor_messages.

(** What a call gives back to its caller. *)
Inductive py_value :=
| VJson (j : json)
| VOptStr (s : option string)
| VUpdates (l : list Update)
| VNone.

Definition is_monitor (c : remote_call) : bool :=
  match c with Call_monitor_messages => true | _ => false end.

(** The operations whose result is the decoded answer of the platform. *)
Definition is_api_wrapper (c : remote_call) : bool :=
  match c with
  | Call_get_file_download_url _ | Call_download_file _ _
  | Call_get_all_updates _ _ | Call_monitor_messages => false
  | _ => true
  end.

Section Run.

Variable token : string.
Variable requests_json : request -> outcome json.
Variable requests_get_stream : string -> outcome http_response.
Variable write_download :
  http_response -> string -> option string -> outcome string.
Variable guess_type : string -> option string.
Variable open_file : string -> outcome string.
Variable format_str : json -> string.
Variable Source : Type.
Variable getUpdates :
  Source -> option Z -> option Z -> outcome response * Source.

(** A call run against the platform; [fuel] bounds the turns of the
    monitoring loop, [None] is that loop still running. *)
Definition run (fuel : nat) (src : Source) (c : remote_call)
  : option (outcome py_value) :=
  let json_value (r : outcome json) := Some (j <- r ;; Returns (VJson j)) in
  let path_value (r : outcome (option string)) :=
    Some (s <- r ;; Returns (VOptStr s)) in
  match c with
  | Call_get_bot_info => json_value (get_bot_info token requests_json)
  | Call_get_chat_info chat_id =>
      json_value (get_chat_info token requests_json chat_id)
  | Call_get_chat_member chat_id user_id =>
      json_value (get_chat_member token requests_json chat_id user_id)
  | Call_get_chat_administrators chat_id =>
      json_value (get_chat_administrators token requests_json chat_id)
  | Call_get_chat_member_count chat_id =>
      json_value (get_chat_member_count token requests_json chat_id)
  | Call_get_my_commands chat_id =>
      json_value (get_my_commands token requests_json chat_id)
  | Call_get_my_default_admin_rights chat_id =>
      json_value (get_my_default_admin_rights token requests_json chat_id)
  | Call_send_message chat_id text =>
      json_value (send_message token requests_json chat_id text)
  | Call_delete_message chat_id message_id =>
      json_value (delete_message token requests_json chat_id message_id)
  | Call_send_file chat_id file_path caption =>
      json_value (send_file token requests_json guess_type open_file
                            chat_id file_path caption)
  | Call_get_file_download_url file_id =>
      path_value (get_file_download_url token requests_json format_str
                                        file_id)
  | Call_download_file file_id filename =>
      path_value (download_file token requests_json requests_get_stream
                                write_download format_str file_id filename)
  | Call_get_all_updates limit offset =>
      match get_all_updates token requests_json getUpdates limit offset src
      with
      | Some r => Some (l <- returned r ;; Returns (VUpdates l))
      | None => None
      end
  | Call_monitor_messages =>
      match monitor_messages token requests_json getUpdates fuel src with
      | Some r => Some (_ <- r ;; Returns VNone)
      | None => None
      end
  end.

End Run.

Arguments run token requests_json requests_get_stream write_download
  guess_type open_file format_str {Source} getUpdates fuel src c.

(** A call made while the network is down: every request, to whatever
    endpoint, raises [e]; the local file system works. *)
Definition run_while_down (e : exn) (c : remote_call)
  : option (outcome py_value) :=
  run "TOKEN" (down e) (down e) (fun _ _ _ => Returns "downloads/other/f")
      (fun _ => None) (fun _ => Returns "") (fun _ => "")
      (down_source e) 1 tt c.

(** ** Reading a log of requests *)

(** The updates an exchange added to [all_updates]. *)
Definition page_of (e : exchange) : list Update :=
  match reply e with
  | Returns data => if ok data then result data else []
  | Raises _ => []
  end.

Definition pages (t : list exchange) : list Update := flat_map page_of t.

(** The tests that end the loop, at an exchange made when [before]
    updates had been accumulated: an exception, the first [break]
    ([not data['ok'] or not data['result']]), or the second
    ([len(all_updates) >= limit or len(batch_updates) < 100]). *)
Definition stops (limit before : Z) (e : exchange) : bool :=
  match reply e with
  | Raises _ => true
  | Returns data =>
      negb (ok data) || (len (result data) =? 0)
      || (limit <=? before + len (result data))
      || (len (result data) <? 100)
  end.

Definition exit_after (e : exchange) : loop_exit :=
  match reply e with
  | Raises x => ByException x
  | Returns _ => ByBreak
  end.

(** The logs the loop can leave when it is entered with the given
    [offset] and [before] accumulated updates: each request carries the
    current offset and [min(100, limit - before)]; the last exchange, and
    only the last, meets a stop test; after any other the offset is the
    id of the last update of its page plus one. *)
Fixpoint loop_trace (limit offset before : Z) (t : list exchange) : Prop :=
  match t with
  | [] => False
  | e :: rest =>
      req_offset e = Some offset
      /\ req_limit e = Some (Z.min 100 (limit - before))
      /\ match rest with
         | [] => stops limit before e = true
         | _ :: _ =>
             stops limit before e = false
             /\ exists last_update,
                 last_item (page_of e) = Returns last_update
                 /\ loop_trace limit (update_id last_update + 1)
                               (before + len (page_of e)) rest
         end
  end.

(** Ids strictly increasing along a list of updates. *)
Definition ascending (updates : list Update) : Prop :=
  StronglySorted Z.lt (map update_id updates).

(** The value of the variable [offset] after an exchange that was sent
    with offset [sent]. *)
Definition offset_after (sent : Z) (e : exchange) : Z :=
  match last_item (page_of e) with
  | Returns last_update => update_id last_update + 1
  | Raises _ => sent
  end.

(** An operation of the environment that raises nothing outside the
    [Exception] hierarchy (no [KeyboardInterrupt]). *)
Definition only_Exceptions {A : Type} (r : outcome A) : Prop :=
  match r with
  | Returns _ => True
  | Raises e => is_Exception e = true
  end.

(** A platform whose every request is answered with the same decoded
    body, and an answer of [getMe] for a bot in privacy mode. *)
Definition answering {Q : Type} (j : json) (_ : Q) : outcome json := Returns j.

Definition sample_bot_info : json :=
  JDict [("ok", JBool true);
         ("result", JDict [("id", JInt 7000000001);
                           ("is_bot", JBool true);
                           ("first_name", JStr "threaty");
                           ("can_read_all_group_messages", JBool false)])].

(** A transport failure: what [requests] raises when the network fails. *)
Definition is_transport_failure (e : exn) : bool :=
  match e with
  | RequestException _ => true
  | _ => false
  end.

(** An outcome that hands no transport failure to the caller. *)
Definition contained {A : Type} (r : outcome A) : Prop :=
  match r with
  | Returns _ => True
  | Raises e => is_transport_failure e = false
  end.

(* ================================================================== *)
(** * Part I, continued. The rest of the program                       *)
(* ================================================================== *)

(** ** Message listings *)

Definition direction_eqb (a b : Direction) : bool :=
  match a, b with
  | SENT, SENT | RECEIVED, RECEIVED => true
  | _, _ => false
  end.

(** [[msg for msg in messages if msg['direction'] == 'RECEIVED']] in
    [display_received_messages], and its twin in [display_sent_messages]. *)
Definition received_messages (messages : list ProjectedMessageRecord)
  : list ProjectedMessageRecord :=
  filter (fun msg => direction_eqb (direction msg) RECEIVED) messages.

Definition sent_messages (messages : list ProjectedMessageRecord)
  : list ProjectedMessageRecord :=
  filter (fun msg => direction_eqb (direction msg) SENT) messages.





(** ** Helpers built on the wrappers *)

(** What [_delete_single_message] prints, as a value. *)
Inductive delete_report :=
| Deleted (message_id : Z)
| TooOld (message_id : Z)
| Failed (message_id : Z).

Definition too_old_description : string :=
  "Bad Request: message can't be deleted for everyone".

(** [j == s] for a decoded value and a string. *)
Definition json_is_str (j : json) (s : string) : bool :=
  match j with
  | JStr t => String.eqb t s
  | _ => false
  end.

(** One started process of [spam_messages]: a call of [send_message]. *)
Record SendCall := mkSendCall {
  send_chat_id : ChatId;
  send_text : string
}.

(** [spam_messages]: the processes, in the order they are started. *)
Definition spam_messages (chat_id : ChatId) (message : string) (count : Z)
  : list SendCall :=
  map (fun _ => {| send_chat_id := chat_id; send_text := message |})
      (range count).

Section Helpers.

Variable token : string.
Variable requests_json : request -> outcome json.

(** The text that [requests] puts in a form field for a decoded value. *)
Variable form_str : json -> string.

(** [get_chat_type]; Python's [None] is [JNull]. *)
Definition get_chat_type (chat_id : ChatId) : outcome json :=
  chat_info <- get_chat_info token requests_json chat_id ;;
  is_ok <- dict_get chat_info "ok" JNull ;;
  if truthy is_ok then
    chat_data <- subscript chat_info "result" ;;
    dict_get chat_data "type" JNull
  else Returns JNull.

(** The request of [self.delete_message(chat_id, message_id)] for a
    [message_id] taken from a decoded answer. *)
Definition probe_delete_request (chat_id : ChatId) (message_id : json)
  : request :=
  {| verb := POST; url := base_url token ++ "/deleteMessage";
     data := [("chat_id", str_of_chat_id chat_id);
              ("message_id", form_str message_id)];
     upload := None |}.

(** [get_latest_message_id]: a dot is sent, the id of that message is
    read, the message is deleted, the id is returned. *)
Definition get_latest_message_id (chat_id : ChatId) : outcome json :=
  test_response <- send_message token requests_json chat_id "." ;;
  is_ok <- dict_get test_response "ok" JNull ;;
  if truthy is_ok then
    sent <- subscript test_response "result" ;;
    message_id <- subscript sent "message_id" ;;
    _ <- api_call requests_json (probe_delete_request chat_id message_id) ;;
    Returns message_id
  else Returns JNull.

Definition _delete_single_message (chat_id : ChatId) (message_id : Z)
  : outcome delete_report :=
  result <- delete_message token requests_json chat_id message_id ;;
  is_ok <- dict_get result "ok" JNull ;;
  if truthy is_ok then Returns (Deleted message_id)
  else
    description <- dict_get result "description" JNull ;;
    if json_is_str description too_old_description
    then Returns (TooOld message_id)
    else Returns (Failed message_id).

End Helpers.


(** ** More Python built-ins on strings *)

Module PyText.

(** [c.isspace()] on the code points below 256. *)
Definition isspace (c : ascii) : bool :=
  let n := N_of_ascii c in
  (((9 <=? n) && (n <=? 13)) || ((28 <=? n) && (n <=? 32))
   || (n =? 133) || (n =? 160))%N.

(** [c.isalnum()] on the code points below 256: digits, letters, and the
    Latin-1 letters and numerics. *)
Definition isalnum (c : ascii) : bool :=
  let n := N_of_ascii c in
  (((48 <=? n) && (n <=? 57)) || ((65 <=? n) && (n <=? 90))
   || ((97 <=? n) && (n <=? 122)) || (n =? 170)
   || ((178 <=? n) && (n <=? 179)) || (n =? 181)
   || ((185 <=? n) && (n <=? 186)) || ((188 <=? n) && (n <=? 190))
   || ((192 <=? n) && (n <=? 214)) || ((216 <=? n) && (n <=? 246))
   || ((248 <=? n) && (n <=? 255)))%N.

(** [c in chars] *)
Fixpoint in_chars (chars : string) (c : ascii) : bool :=
  match chars with
  | EmptyString => false
  | String a rest => Ascii.eqb a c || in_chars rest c
  end.

(** Dropping the leading, and the trailing, characters that satisfy [p]. *)
Fixpoint lstrip_by (p : ascii -> bool) (s : string) : string :=
  match s with
  | EmptyString => EmptyString
  | String a rest => if p a then lstrip_by p rest else s
  end.

Fixpoint rstrip_by (p : ascii -> bool) (s : string) : string :=
  match s with
  | EmptyString => EmptyString
  | String a rest =>
      match rstrip_by p rest with
      | EmptyString => if p a then EmptyString else String a EmptyString
      | kept => String a kept
      end
  end.

(** [s.strip()], [s.rstrip()] and [s.strip(chars)] *)
Definition strip (s : string) : string :=
  lstrip_by isspace (rstrip_by isspace s).

Definition rstrip (s : string) : string := rstrip_by isspace s.

Definition strip_chars (chars s : string) : string :=
  lstrip_by (in_chars chars) (rstrip_by (in_chars chars) s).

(** ["".join(c for c in s if p(c))] *)
Fixpoint keep (p : ascii -> bool) (s : string) : string :=
  match s with
  | EmptyString => EmptyString
  | String a rest => if p a then String a (keep p rest) else keep p rest
  end.

(** [s.endswith(c)] for one character. *)
Fixpoint endswith (s : string) (c : ascii) : bool :=
  match s with
  | EmptyString => false
  | String a EmptyString => Ascii.eqb a c
  | String _ rest => endswith rest c
  end.

(** [s.split(sep)[1]] for a separator that occurs in [s]: what lies
    between its first occurrence and the next one. *)
Definition second_field (sep s : string) : string :=
  match String.index 0 sep s with
  | None => ""
  | Some i =>
      let start := (i + String.length sep)%nat in
      let rest := substring start (String.length s - start) s in
      match String.index 0 sep rest with
      | None => rest
      | Some j => substring 0 j rest
      end
  end.

(** The double quote. *)
Definition double_quote : ascii := ascii_of_nat 34.

End PyText.

(** [os.path.join(a, b)] (posixpath). *)
Definition path_join (a b : string) : string :=
  if PyStr.startswith b "/" then b
  else if String.eqb a "" || PyText.endswith a "/" then a ++ b
  else a ++ "/" ++ b.

(** ** Saving a download *)

(** The characters [safe_filename] lets through. *)
Definition safe_char (c : ascii) : bool :=
  PyText.isalnum c || PyText.in_chars "._- " c.

(** ["".join(c for c in filename if c.isalnum() or c in '._- ').rstrip()] *)
Definition safe_filename (filename : string) : string :=
  PyText.rstrip (PyText.keep safe_char filename).

(** [response.headers.get(name, '')]; the names of headers are matched
    without regard to case. *)
Fixpoint header_get (headers : list (string * string)) (name : string)
  : string :=
  match headers with
  | [] => ""
  | (k, v) :: rest =>
      if String.eqb (PyStr.lower k) (PyStr.lower name) then v
      else header_get rest name
  end.

Section Download.

(** [self.download_dir], [mimetypes.guess_extension], and what the file
    system does for [os.makedirs(dir, exist_ok=True)] and for writing
    the chunks of the body to a path. *)
Variable download_dir : string.
Variable guess_extension : string -> option string.
Variable makedirs : string -> outcome unit.
Variable write_chunks : string -> list string -> outcome unit.

(** The name given to a download: the caller's, or the one of the
    [content-disposition] header, or one made of the file id and the
    extension of the content type. *)
Definition named_by_response (response : http_response) (file_id : string)
  : string :=
  let content_disposition :=
    header_get (headers response) "content-disposition" in
  if contains content_disposition "filename=" then
    PyText.strip_chars (String PyText.double_quote "'")
      (PyText.second_field "filename=" content_disposition)
  else
    let extension :=
      match guess_extension (header_get (headers response) "content-type")
      with
      | Some ext => if String.eqb ext "" then ".bin" else ext
      | None => ".bin"
      end in
    "file_" ++ substring 0 8 file_id ++ extension.

Definition choose_filename (response : http_response) (file_id : string)
           (filename : option string) : string :=
  match filename with
  | Some f => if String.eqb f "" then named_by_response response file_id
              else f
  | None => named_by_response response file_id
  end.

(** The body of [if response.status_code == 200] in [download_file]. *)
Definition write_download_body (response : http_response) (file_id : string)
           (filename : option string) : outcome string :=
  let safe := safe_filename (choose_filename response file_id filename) in
  let category := get_file_category safe in
  let category_dir := path_join download_dir category in
  _ <- makedirs category_dir ;;
  let filepath := path_join category_dir safe in
  _ <- write_chunks filepath (content response) ;;
  Returns filepath.

End Download.

(** ** Configuration and start-up *)

(** [s.split(c, 1)] when [c] occurs in [s]: what precedes its first
    occurrence and what follows it; [None] when it does not occur. *)
Fixpoint split_once (c : ascii) (s : string) : option (string * string) :=
  match s with
  | EmptyString => None
  | String a rest =>
      if Ascii.eqb a c then Some (EmptyString, rest)
      else match split_once c rest with
           | Some (before, after) => Some (String a before, after)
           | None => None
           end
  end.

(** The dict [env_vars]: the keys in the order they were first set. *)
Definition env := list (string * string).

(** [env_vars[key] = value] *)
Fixpoint env_set (key value : string) (vars : env) : env :=
  match vars with
  | [] => [(key, value)]
  | (k, v) :: rest =>
      if String.eqb k key then (k, value) :: rest
      else (k, v) :: env_set key value rest
  end.

(** [env_vars.get(key)] *)
Fixpoint env_get (vars : env) (key : string) : option string :=
  match vars with
  | [] => None
  | (k, v) :: rest => if String.eqb k key then Some v else env_get rest key
  end.

(** One turn of the [for line in f] loop of [load_env_file]: the key and
    the value the line sets, if it sets one. *)
Definition parse_env_line (raw : string) : option (string * string) :=
  let line := PyText.strip raw in
  if negb (String.eqb line "") && negb (PyStr.startswith line "#")
     && PyText.in_chars line "="
  then
    match split_once "=" line with
    | Some (key, value) =>
        Some (PyText.strip key,
              PyText.strip_chars "'"
                (PyText.strip_chars (String PyText.double_quote "")
                   (PyText.strip value)))
    | None => None
    end
  else None.

Definition read_env_lines (lines : list string) : env :=
  fold_left (fun vars raw =>
               match parse_env_line raw with
               | Some (key, value) => env_set key value vars
               | None => vars
               end) lines [].

(** [load_env_file]: [env_file] is the lines of [.env], [None] when
    there is no such file; [inl 1] is [sys.exit(1)]. *)
Definition load_env_file (env_file : option (list string)) : Z + env :=
  match env_file with
  | None => inl 1
  | Some lines => inr (read_env_lines lines)
  end.

(** A string that [lstrip] and [rstrip] by [p] leave as it is. *)
Definition trimmed (p : ascii -> bool) (s : string) : Prop :=
  PyText.lstrip_by p s = s /\ PyText.rstrip_by p s = s.

(** How [main] goes on: the process exits, or the menu is entered, or
    an exception ends the program. *)
Inductive startup :=
| Exit (status : Z)
| Menu (token : string) (chat_id : ChatId)
| Crashed (e : exn).

Section Main.

Variable requests_json : request -> outcome json.

(** [os.makedirs(download_dir, exist_ok=True)] in [ThreatyBot.__init__]. *)
Variable makedirs : string -> outcome unit.

(** The connection test of [main] and the greeting printed after it:
    [true] when the menu is to be entered. *)
Definition connection_test (token : string) : outcome bool :=
  bot_info <- get_bot_info token requests_json ;;
  is_ok <- dict_get bot_info "ok" JNull ;;
  if truthy is_ok then
    bot_data <- subscript bot_info "result" ;;
    _ <- subscript bot_data "first_name" ;;
    _ <- subscript bot_data "username" ;;
    Returns true
  else Returns false.

Definition main (env_file : option (list string)) : startup :=
  match load_env_file env_file with
  | inl status => Exit status
  | inr env_vars =>
      match env_get env_vars "TELEGRAM_BOT_TOKEN" with
      | None => Exit 1
      | Some token =>
          if String.eqb token "" then Exit 1
          else
            match env_get env_vars "TELEGRAM_CHAT_ID" with
            | None => Exit 1
            | Some chat_id =>
                if String.eqb chat_id "" then Exit 1
                else
                  match (_ <- makedirs "downloads" ;; connection_test token)
                  with
                  | Raises e => Crashed e
                  | Returns false => Exit 1
                  | Returns true => Menu token (ChatIdStr chat_id)
                  end
            end
      end
  end.

End Main.

(* ================================================================== *)
(** * Part II. Theorems                                                 *)
(* ================================================================== *)

(** ** File classifier *)

Lemma first_category_in (ext : string) (items : list (string * list string))
      (c : string) :
  first_category ext items = Some c -> In c (map fst items).
Proof.
  induction items as [| [category extensions] rest IH]; simpl.
  - discriminate.
  - destruct (ext_in ext extensions).
    + intros [= <-]. now left.
    + intros H. right. now apply IH.
Qed.

(** C5. The classifier is a total function of the filename:
    ["report.PDF"] is a document, ["archive.tar.gz"] is an archive (only
    the final extension [".gz"] counts), ["noext"] is ["other"], the empty
    name is ["unknown"]; and every filename is given one of the twelve
    category names. *)
Theorem get_file_category_total_examples :
  get_file_category "report.PDF" = "document"
  /\ snd (OsPath.splitext "archive.tar.gz") = ".gz"
  /\ get_file_category "archive.tar.gz" = "archive"
  /\ get_file_category "noext" = "other"
  /\ get_file_category "" = "unknown"
  /\ forall filename : string,
       In (get_file_category filename) category_names.
Proof.
  repeat split; try reflexivity.
  intros filename. unfold get_file_category, category_names.
  destruct (String.eqb filename "").
  - apply in_or_app. right. simpl. tauto.
  - destruct (first_category _ file_categories) as [c |] eqn:E.
    + apply in_or_app. left. eapply first_category_in, E.
    + apply in_or_app. right. simpl. tauto.
Qed.

(** ** Message projector *)

Lemma project_update_some (filter : option ChatId) (can_read_all : bool)
      (u : Update) (r : ProjectedMessageRecord) :
  project_update filter can_read_all u = Some r ->
  exists m, embedded_message u = Some m
            /\ chat_mismatch filter m = false
            /\ (can_read_all = true \/ is_visible m = true)
            /\ r = make_record u m.
Proof.
  unfold project_update.
  destruct (embedded_message u) as [m |]; [| discriminate].
  destruct (chat_mismatch filter m) eqn:Hc; [discriminate |].
  destruct can_read_all; simpl.
  - intros [= <-]. exists m. repeat split; auto.
  - destruct (is_visible m) eqn:Hv; simpl; [| discriminate].
    intros [= <-]. exists m. repeat split; auto.
Qed.

Lemma in_history (filter : option ChatId) (can_read_all : bool)
      (updates : list Update) (r : ProjectedMessageRecord) :
  In r (project_messages filter can_read_all updates) <->
  exists u, In u updates /\ project_update filter can_read_all u = Some r.
Proof.
  induction updates as [| u rest IH]; simpl.
  - split; [tauto | intros (u & [] & _)].
  - destruct (project_update filter can_read_all u) as [r0 |] eqn:E; simpl.
    + rewrite IH. split.
      * intros [<- | (u' & Hin & Hu')]; eauto.
      * intros (u' & [<- | Hin] & Hu').
        -- left. congruence.
        -- right. eauto.
    + rewrite IH. split.
      * intros (u' & Hin & Hu'); eauto.
      * intros (u' & [<- | Hin] & Hu'); [congruence | eauto].
Qed.

Lemma is_visible_spec (m : Message) :
  is_visible m = true <->
  (exists t, text m = Some t /\ PyStr.startswith t "/" = true)
  \/ reply_to_message m <> None
  \/ chat_type (chat m) = "private".
Proof.
  unfold is_visible, is_command, is_reply, is_private.
  rewrite !orb_true_iff, String.eqb_eq.
  split.
  - intros [[H | H] | H].
    + left. destruct (text m) as [t |]; [eauto | discriminate].
    + right. left. destruct (reply_to_message m); congruence.
    + auto.
  - intros [(t & -> & H) | [H | H]]; auto.
    left. right. destruct (reply_to_message m); congruence.
Qed.

Lemma project_update_visible (filter : option ChatId) (u : Update)
      (m : Message) :
  embedded_message u = Some m ->
  chat_mismatch filter m = false ->
  project_update filter false u
  = if is_visible m then Some (make_record u m) else None.
Proof.
  intros He Hc. unfold project_update. rewrite He, Hc. simpl.
  now destruct (is_visible m).
Qed.

(** C1. In privacy mode ([can_read_all = false]) the message of an
    update is kept in the output iff its text starts with ['/'], or it
    carries a [reply_to_message], or its chat type is ["private"]: so it
    is when the projection runs without a chat filter, and so it is under
    a chat filter for the messages that filter lets through.  So
    ["/start"] is retained, ["hello"] in a group chat without a reply is
    dropped, and a message of a private chat without a command is
    retained. *)
Theorem privacy_mode_keeps_exactly_visible :
  (forall (updates : list Update) (u : Update) (m : Message),
      In u updates ->
      embedded_message u = Some m ->
      (In (make_record u m) (project_messages None false updates)
       <-> ((exists t, text m = Some t /\ PyStr.startswith t "/" = true)
            \/ reply_to_message m <> None
            \/ chat_type (chat m) = "private")))
  /\ (forall (filter : option ChatId) (updates : list Update) (u : Update)
             (m : Message),
         In u updates ->
         embedded_message u = Some m ->
         chat_mismatch filter m = false ->
         (In (make_record u m) (project_messages filter false updates)
          <-> ((exists t, text m = Some t /\ PyStr.startswith t "/" = true)
               \/ reply_to_message m <> None
               \/ chat_type (chat m) = "private")))
  /\ (forall (c : Chat) (n : Z),
         project_messages None false
           [update_with n (text_message c "/start")]
         = [make_record (update_with n (text_message c "/start"))
                        (text_message c "/start")])
  /\ (forall n : Z,
         project_messages None false
           [update_with n (text_message group_chat "hello")] = [])
  /\ (forall n : Z,
         project_messages None false
           [update_with n (text_message private_chat "hello");
            update_with (n + 1) (photo_message private_chat)]
         = [make_record (update_with n (text_message private_chat "hello"))
                        (text_message private_chat "hello");
            make_record (update_with (n + 1) (photo_message private_chat))
                        (photo_message private_chat)]).
Proof.
  assert (Hkept : forall filter updates u m,
             In u updates ->
             embedded_message u = Some m ->
             chat_mismatch filter m = false ->
             (In (make_record u m) (project_messages filter false updates)
              <-> ((exists t, text m = Some t
                              /\ PyStr.startswith t "/" = true)
                   \/ reply_to_message m <> None
                   \/ chat_type (chat m) = "private"))).
  { intros filter updates u m Hin He Hc.
    rewrite <- is_visible_spec, in_history. split.
    - intros (u' & _ & Hu').
      apply project_update_some in Hu' as (m' & _ & _ & [Hf | Hv] & Hr).
      + discriminate.
      + injection Hr as _ Hm _ _ _. now subst m'.
    - intros Hv. exists u. split; [assumption |].
      rewrite (project_update_visible filter u m He Hc). now rewrite Hv. }
  split; [| split; [exact Hkept | repeat split; reflexivity]].
  intros updates u m Hin He. now apply Hkept.
Qed.

Lemma privacy_mode_keeps_exactly_visible_witness :
  In (make_record (update_with 7 (text_message group_chat "/start"))
                  (text_message group_chat "/start"))
     (project_messages (Some (ChatIdStr "-1001")) false
        [update_with 6 (text_message group_chat "hello");
         update_with 7 (text_message group_chat "/start")])
  <-> ((exists t, text (text_message group_chat "/start") = Some t
                  /\ PyStr.startswith t "/" = true)
       \/ reply_to_message (text_message group_chat "/start") <> None
       \/ chat_type (chat (text_message group_chat "/start")) = "private").
Proof.
  apply (proj1 (proj2 privacy_mode_keeps_exactly_visible)
               (Some (ChatIdStr "-1001"))
               [update_with 6 (text_message group_chat "hello");
                update_with 7 (text_message group_chat "/start")]
               (update_with 7 (text_message group_chat "/start"))
               (text_message group_chat "/start")).
  - simpl. right. left. reflexivity.
  - reflexivity.
  - vm_compute. reflexivity.
Defined.

Lemma history_all_readable (updates : list Update) :
  Forall2 (fun u r => exists m, embedded_message u = Some m
                                /\ r = make_record u m)
          (filter has_message updates)
          (project_messages None true updates).
Proof.
  induction updates as [| u rest IH]; simpl.
  - constructor.
  - unfold project_update, has_message.
    destruct (embedded_message u) as [m |] eqn:E; simpl.
    + constructor; [exists m; auto | exact IH].
    + exact IH.
Qed.

(** C2. With no chat filter and [can_read_all = true] the projection
    yields exactly one record per update that carries a message (in
    ['message'] or in ['channel_post']), in the order of the input; the
    number of records is the number of such updates; and for no argument
    values is a record produced for an update whose message is empty. *)
Theorem one_record_per_message_update :
  forall updates : list Update,
    Forall2 (fun u r => exists m, embedded_message u = Some m
                                  /\ r = make_record u m)
            (filter has_message updates)
            (project_messages None true updates)
    /\ List.length (project_messages None true updates)
       = List.length (filter has_message updates)
    /\ map rec_update_id (project_messages None true updates)
       = map update_id (filter has_message updates)
    /\ (forall (chat_filter : option ChatId) (can_read_all : bool)
               (r : ProjectedMessageRecord),
           In r (project_messages chat_filter can_read_all updates) ->
           exists u m, In u updates /\ embedded_message u = Some m
                       /\ r = make_record u m).
Proof.
  intros updates.
  pose proof (history_all_readable updates) as HF.
  split; [exact HF |]. split; [| split].
  - symmetry. eapply Forall2_length, HF.
  - induction HF as [| u r us rs (m & _ & ->) _ IH]; simpl; [reflexivity |].
    now rewrite IH.
  - intros chat_filter can_read_all r Hin.
    apply in_history in Hin as (u & Hu & Hp).
    apply project_update_some in Hp as (m & He & _ & _ & ->).
    eauto.
Qed.

Lemma one_record_per_message_update_witness :
  List.length (project_messages None true
            [update_with 1 (text_message group_chat "hello");
             {| update_id := 2; message := None; channel_post := None |};
             {| update_id := 3; message := None;
                channel_post := Some (photo_message group_chat) |}])
  = 2%nat.
Proof.
  rewrite (proj1 (proj2 (one_record_per_message_update _))).
  reflexivity.
Defined.

Lemma filter_idem {A : Type} (p : A -> bool) (l : list A) :
  filter p (filter p l) = filter p l.
Proof.
  induction l as [| a l IH]; simpl; [reflexivity |].
  destruct (p a) eqn:E; simpl; [rewrite E, IH |]; auto.
Qed.

Lemma history_reprojected (chat_filter : option ChatId)
      (updates : list Update) :
  project_messages chat_filter false
    (map update_of_record
         (project_messages chat_filter false updates))
  = project_messages chat_filter false updates.
Proof.
  induction updates as [| u rest IH]; simpl; [reflexivity |].
  destruct (project_update chat_filter false u) as [r |] eqn:E; [| exact IH].
  apply project_update_some in E as (m & _ & Hc & [Hf | Hv] & ->);
    [discriminate |].
  simpl. unfold project_update at 1. simpl.
  rewrite Hc, Hv. simpl. unfold make_record at 1. simpl. now rewrite IH.
Qed.

Lemma history_is_visibility_filter (updates : list Update) :
  map rec_message (project_messages None false updates)
  = visibility_filter
      (flat_map (fun u => match embedded_message u with
                          | Some m => [m]
                          | None => []
                          end) updates).
Proof.
  unfold visibility_filter.
  induction updates as [| u rest IH]; simpl; [reflexivity |].
  unfold project_update.
  destruct (embedded_message u) as [m |]; simpl; [| exact IH].
  destruct (is_visible m); simpl; now rewrite IH.
Qed.

(** C9. The privacy-mode visibility filter (command, reply or private
    chat) is idempotent: filtering a sequence of messages twice gives what
    filtering it once gives.  The filter is the one the projector applies,
    and projecting the projector's own output again changes nothing. *)
Theorem visibility_filter_idempotent :
  (forall ms : list Message,
      visibility_filter (visibility_filter ms) = visibility_filter ms)
  /\ (forall updates : list Update,
         map rec_message (project_messages None false updates)
         = visibility_filter
             (flat_map (fun u => match embedded_message u with
                                 | Some m => [m]
                                 | None => []
                                 end) updates))
  /\ (forall (chat_filter : option ChatId) (updates : list Update),
         project_messages chat_filter false
           (map update_of_record
                (project_messages chat_filter false updates))
         = project_messages chat_filter false updates).
Proof.
  split; [| split].
  - intros ms. apply filter_idem.
  - apply history_is_visibility_filter.
  - apply history_reprojected.
Qed.

(** The method is the projection of what its two lookups deliver. *)
Lemma get_complete_message_history_projects
      (token : string) (requests_json : request -> outcome json)
      (Source : Type)
      (getUpdates :
         Source -> option Z -> option Z -> outcome response * Source)
      (chat_filter : option ChatId) (limit : Z) (src : Source)
      (fetched : poll_run Source) (updates : list Update)
      (can_read_all : bool) :
  get_all_updates token requests_json getUpdates limit 0 src = Some fetched ->
  returned fetched = Returns updates ->
  can_read_all_group_messages token requests_json = Returns can_read_all ->
  get_complete_message_history token requests_json getUpdates
    chat_filter limit src
  = Some (Returns (project_messages chat_filter can_read_all updates)).
Proof.
  intros Hf Hu Hc. unfold get_complete_message_history.
  now rewrite Hf, Hu, Hc.
Qed.

(** ** Bulk operator *)

Lemma in_range (count i : Z) : In i (range count) <-> 0 <= i < count.
Proof.
  unfold range. rewrite in_map_iff. split.
  - intros (n & <- & Hn). apply in_seq in Hn. lia.
  - intros Hi. exists (Z.to_nat i). split; [lia |]. apply in_seq. lia.
Qed.

Lemma range_NoDup (count : Z) : NoDup (range count).
Proof.
  unfold range. apply Injective_map_NoDup.
  - intros a b H. lia.
  - apply seq_NoDup.
Qed.

Lemma bulk_message_ids (chat_id : ChatId) (start count : Z) :
  map del_message_id (delete_messages_bulk chat_id start count)
  = map (fun i => start - i) (range count).
Proof.
  unfold delete_messages_bulk. rewrite map_map. reflexivity.
Qed.

(** C6. For [count >= 0], whatever the order in which the started
    processes get to run, bulk delete issues [count] delete calls, all for
    the given chat, whose message ids are pairwise distinct and are exactly
    the ids [start_message_id - i] for [0 <= i < count]: each id of that
    set is targeted exactly once.  With [start_message_id = 500] and
    [count = 5] the ids are 500, 499, 498, 497, 496. *)
Theorem bulk_delete_targets_each_id_once
        (chat_id : ChatId) (start_message_id count : Z)
        (calls : list DeleteCall) :
  0 <= count ->
  issued_in_some_order
    (delete_messages_bulk chat_id start_message_id count) calls ->
  len calls = count
  /\ NoDup (map del_message_id calls)
  /\ (forall id : Z,
         In id (map del_message_id calls)
         <-> exists i, 0 <= i < count /\ id = start_message_id - i)
  /\ Forall (fun c => del_chat_id c = chat_id) calls
  /\ map del_message_id (delete_messages_bulk chat_id 500 5)
     = [500; 499; 498; 497; 496].
Proof.
  intros Hcount Hperm. unfold issued_in_some_order in Hperm.
  assert (Hids : Permutation
                   (map (fun i => start_message_id - i) (range count))
                   (map del_message_id calls)).
  { rewrite <- (bulk_message_ids chat_id). now apply Permutation_map. }
  repeat split.
  - unfold len. rewrite <- (Permutation_length Hperm).
    unfold delete_messages_bulk, range. rewrite !length_map, length_seq. lia.
  - eapply Permutation_NoDup; [exact Hids |].
    apply Injective_map_NoDup; [| apply range_NoDup].
    intros a b H. lia.
  - intros Hin. apply (Permutation_in _ (Permutation_sym Hids)) in Hin.
    apply in_map_iff in Hin as (i & <- & Hi). apply in_range in Hi. eauto.
  - intros (i & Hi & ->). apply (Permutation_in _ Hids).
    apply in_map_iff. exists i. split; [reflexivity |]. now apply in_range.
  - eapply Permutation_Forall; [exact Hperm |].
    apply Forall_forall. intros x Hx. unfold delete_messages_bulk in Hx.
    apply in_map_iff in Hx as (i & <- & _). reflexivity.
Qed.

Lemma bulk_delete_targets_each_id_once_witness :
  NoDup [498; 500; 496; 499; 497]
  /\ (forall id : Z,
         In id [498; 500; 496; 499; 497]
         <-> exists i, 0 <= i < 5 /\ id = 500 - i).
Proof.
  pose (c := ChatIdStr "-1001").
  assert (Hp : issued_in_some_order (delete_messages_bulk c 500 5)
                 [mkDeleteCall c 498; mkDeleteCall c 500; mkDeleteCall c 496;
                  mkDeleteCall c 499; mkDeleteCall c 497]).
  { unfold issued_in_some_order. vm_compute.
    apply (Permutation_cons_app [_] [_; _; _]).
    apply (Permutation_cons_app [_; _] [_]).
    apply perm_skip, perm_swap. }
  destruct (bulk_delete_targets_each_id_once c 500 5 _ ltac:(lia) Hp)
    as (_ & Hnd & Hin & _).
  split; [exact Hnd | exact Hin].
Defined.

(** ** Update poller *)

Lemma len_app {A : Type} (l1 l2 : list A) : len (l1 ++ l2) = len l1 + len l2.
Proof. unfold len. rewrite length_app. lia. Qed.

Lemma len_nonneg {A : Type} (l : list A) : 0 <= len l.
Proof. unfold len. lia. Qed.

Lemma len_zero {A : Type} (l : list A) : len l = 0 <-> l = [].
Proof.
  unfold len. destruct l; simpl; split; intros H; try reflexivity;
    try discriminate; lia.
Qed.

Lemma last_item_nonempty {A : Type} (l : list A) :
  l <> [] -> exists x, last_item l = Returns x /\ exists l', l = (l' ++ [x])%list.
Proof.
  intros Hne. unfold last_item.
  destruct (rev l) as [| x r] eqn:E.
  - apply (f_equal (@rev A)) in E. rewrite rev_involutive in E. contradiction.
  - exists x. split; [reflexivity |]. exists (rev r).
    apply (f_equal (@rev A)) in E. rewrite rev_involutive in E. exact E.
Qed.

Lemma loop_trace_nonempty (limit offset before : Z) (t : list exchange) :
  loop_trace limit offset before t -> t <> [].
Proof. destruct t; simpl; [tauto | discriminate]. Qed.

Section PollerFacts.

Variable Source : Type.
Variable getUpdates :
  Source -> option Z -> option Z -> outcome response * Source.

(** The loop is left within [limit - len(all_updates)] turns and one. *)
Lemma poll_loop_total (limit : Z) (fuel : nat) :
  forall st : poll_state Source,
    (Z.to_nat (limit - len (all_updates st)) < fuel)%nat ->
    exists r, poll_loop getUpdates fuel limit st = Some r.
Proof.
  induction fuel as [| fuel IH]; intros st Hfuel; [lia |].
  simpl. unfold poll_step.
  destruct (getUpdates (source st) (Some (offset st))
              (Some (Z.min 100 (limit - len (all_updates st)))))
    as [[data | e] src']; [| eauto].
  destruct (negb (ok data) || (len (result data) =? 0)) eqn:Hbreak;
    [eauto |].
  destruct (last_item (result data)) as [u | e]; [| eauto].
  destruct ((limit <=? len (all_updates st ++ result data))
            || (len (result data) <? 100)) eqn:Hstop; [eauto |].
  apply IH. simpl.
  apply orb_false_iff in Hbreak as [_ Hlen], Hstop as [Hlim _].
  rewrite len_app in *.
  pose proof (len_nonneg (result data)). lia.
Qed.

(** What a finished loop leaves behind. *)
Lemma poll_loop_trace (limit : Z) (fuel : nat) :
  forall (st st' : poll_state Source) (how : loop_exit),
    poll_loop getUpdates fuel limit st = Some (st', how) ->
    exists (pre : list exchange) (e : exchange),
      trace st' = (trace st ++ pre ++ [e])%list
      /\ loop_trace limit (offset st) (len (all_updates st)) (pre ++ [e])
      /\ all_updates st' = (all_updates st ++ pages (pre ++ [e]))%list
      /\ how = exit_after e
      /\ (forall sent, req_offset e = Some sent ->
                       offset st' = offset_after sent e).
Proof.
  induction fuel as [| fuel IH]; intros st st' how; [discriminate |].
  simpl. unfold poll_step.
  destruct (getUpdates (source st) (Some (offset st))
              (Some (Z.min 100 (limit - len (all_updates st)))))
    as [r src'] eqn:Hget.
  set (e := {| req_offset := Some (offset st);
               req_limit := Some (Z.min 100 (limit - len (all_updates st)));
               reply := r |}).
  destruct r as [data | x].
  - destruct (negb (ok data) || (len (result data) =? 0)) eqn:Hbreak.
    + intros [= <- <-]. exists [], e. simpl.
      assert (Hpage : page_of e = []).
      { unfold page_of. simpl.
        apply orb_true_iff in Hbreak as [Hok | Hlen].
        - apply negb_true_iff in Hok. now rewrite Hok.
        - apply Z.eqb_eq, len_zero in Hlen. rewrite Hlen.
          now destruct (ok data). }
      unfold offset_after. rewrite Hpage.
      unfold stops, exit_after. simpl. rewrite Hbreak. simpl.
      repeat split; auto.
      * now rewrite app_nil_r.
      * now intros sent [= <-].
    + apply orb_false_iff in Hbreak as [Hok Hlen].
      apply negb_false_iff in Hok. apply Z.eqb_neq in Hlen.
      assert (Hne : result data <> []) by (now rewrite <- len_zero).
      destruct (last_item_nonempty _ Hne) as (u & Hu & _). rewrite Hu.
      assert (Hpage : page_of e = result data)
        by (unfold page_of; simpl; now rewrite Hok).
      destruct ((limit <=? len (all_updates st ++ result data))
                || (len (result data) <? 100)) eqn:Hstop.
      * intros [= <- <-]. exists [], e. simpl.
        unfold offset_after.
        rewrite Hpage, Hu, app_nil_r. unfold stops, exit_after. simpl.
        rewrite len_app in Hstop. rewrite <- orb_assoc, Hstop, orb_true_r.
        repeat split; auto.
      * intros Hloop.
        apply IH in Hloop as (pre & e' & Ht & Hl & Ha & Hh & Ho).
        simpl in Ht, Hl, Ha.
        exists (e :: pre), e'. split; [| split; [| split; [| split]]].
        -- rewrite Ht, <- app_assoc. reflexivity.
        -- simpl. repeat split; auto.
           destruct (pre ++ [e'])%list as [| e1 rest] eqn:Hpre;
             [now destruct pre |].
           split.
           ++ unfold stops. simpl. rewrite len_app in Hstop.
              rewrite <- orb_assoc, Hstop, orb_false_r.
              rewrite Hok. simpl. now apply Z.eqb_neq.
           ++ exists u. rewrite Hpage. split; [assumption |].
              now rewrite <- len_app.
        -- rewrite Ha. simpl. rewrite Hpage, <- app_assoc. reflexivity.
        -- assumption.
        -- assumption.
  - intros [= <- <-]. exists [], e. simpl. repeat split; auto.
    + now rewrite app_nil_r.
    + now intros sent [= <-].
Qed.

End PollerFacts.

(** *** Reading the log *)

Lemma pages_app (t1 t2 : list exchange) :
  pages (t1 ++ t2) = (pages t1 ++ pages t2)%list.
Proof. unfold pages. apply flat_map_app. Qed.

Lemma stops_false (limit before : Z) (e : exchange) :
  stops limit before e = false ->
  exists data, reply e = Returns data
               /\ ok data = true
               /\ result data <> []
               /\ page_of e = result data
               /\ before + len (result data) < limit
               /\ 100 <= len (result data).
Proof.
  unfold stops, page_of. destruct (reply e) as [data | x]; [| discriminate].
  rewrite !orb_false_iff. intros [[[Hok Hlen] Hlim] Hfull].
  apply negb_false_iff in Hok. rewrite Hok.
  exists data. repeat split; auto.
  - rewrite <- len_zero. now apply Z.eqb_neq.
  - now apply Z.leb_gt.
  - now apply Z.ltb_ge.
Qed.

Lemma stops_true (limit before : Z) (e : exchange) :
  stops limit before e = true <->
  (exists x, reply e = Raises x)
  \/ (exists data, reply e = Returns data
                   /\ (ok data = false
                       \/ result data = []
                       \/ limit <= before + len (result data)
                       \/ len (result data) < 100)).
Proof.
  unfold stops. destruct (reply e) as [data | x].
  - rewrite !orb_true_iff, negb_true_iff, Z.eqb_eq, Z.leb_le, Z.ltb_lt,
      len_zero.
    split.
    + intros H. right. exists data. tauto.
    + intros [(x & Hx) | (d & [= <-] & H)]; [discriminate | tauto].
  - split; [eauto | reflexivity].
Qed.

(** The exchange at any position of a log of the loop. *)
Lemma loop_trace_at (limit : Z) (pre : list exchange) :
  forall (offset before : Z) (e : exchange) (post : list exchange),
    loop_trace limit offset before (pre ++ e :: post) ->
    req_limit e = Some (Z.min 100 (limit - (before + len (pages pre))))
    /\ (post = [] <-> stops limit (before + len (pages pre)) e = true)
    /\ (pre = [] -> req_offset e = Some offset)
    /\ (exists sent, req_offset e = Some sent)
    /\ (forall e2 post', post = e2 :: post' ->
          exists u, last_item (page_of e) = Returns u
                    /\ req_offset e2 = Some (update_id u + 1)).
Proof.
  induction pre as [| a pre IH]; intros offset before e post; simpl.
  - rewrite Z.add_0_r. intros (Hoff & Hlim & Hrest).
    split; [assumption |]. split; [| split; [auto | split; [eauto |]]].
    + destruct post; [tauto |].
      destruct Hrest as (Hs & _). rewrite Hs.
      split; intros; discriminate.
    + intros e2 post' ->. destruct Hrest as (_ & u & Hu & Hnext).
      exists u. split; [assumption |]. simpl in Hnext. tauto.
  - intros (_ & _ & Hrest).
    destruct (pre ++ e :: post)%list as [| b rest] eqn:E;
      [now destruct pre |].
    destruct Hrest as (_ & u & _ & Hnext). rewrite <- E in Hnext.
    apply IH in Hnext as (Hl & Hs & _ & Ho & Hn).
    unfold pages in *. simpl. rewrite len_app.
    rewrite Z.add_assoc.
    repeat split; try tauto; try discriminate; try exact Hn; try exact Ho.
Qed.

(** Every page of a log that respects the requested page size fits
    under the limit. *)
Lemma loop_trace_bounded (limit : Z) (t : list exchange) :
  forall offset before : Z,
    loop_trace limit offset before t ->
    Forall (fun e => forall l, req_limit e = Some l -> len (page_of e) <= l) t ->
    before + len (pages t) <= limit.
Proof.
  induction t as [| e rest IH]; intros offset before; simpl; [tauto |].
  intros (_ & Hlim & Hrest) Hall.
  apply Forall_cons_iff in Hall as [He Hall]. specialize (He _ Hlim).
  unfold pages. simpl. rewrite len_app.
  destruct rest as [| e2 rest].
  - simpl. unfold len at 2. simpl. lia.
  - destruct Hrest as (_ & u & _ & Hnext).
    specialize (IH _ _ Hnext Hall). unfold pages in IH. lia.
Qed.

Section PollerRuns.

Variable Source : Type.
Variable getUpdates :
  Source -> option Z -> option Z -> outcome response * Source.

(** The polling comes back, and what it comes back with. *)
Lemma poll_updates_run (limit start : Z) (src : Source) :
  exists (r : poll_run Source) (pre : list exchange) (e : exchange),
    poll_updates getUpdates limit start src = Some r
    /\ trace (final r) = (pre ++ [e])%list
    /\ loop_trace limit start 0 (pre ++ [e])
    /\ all_updates (final r) = pages (pre ++ [e])
    /\ (forall sent, req_offset e = Some sent ->
                     offset (final r) = offset_after sent e)
    /\ returned r
       = match exit_after e with
         | ByBreak => Returns (pages (pre ++ [e]))
         | ByException x =>
             if is_Exception x then Returns (pages (pre ++ [e]))
             else Raises x
         end.
Proof.
  unfold poll_updates.
  destruct (poll_loop_total Source getUpdates limit (S (Z.to_nat limit))
              (mkPollState src start [] [])) as [[st how] Hrun].
  { simpl. unfold len. simpl. lia. }
  rewrite Hrun.
  apply poll_loop_trace in Hrun as (pre & e & Ht & Hl & Ha & Hh & Ho).
  simpl in Ht, Hl, Ha.
  exists (match how with
          | ByBreak => mkPollRun (Returns (all_updates st)) st
          | ByException x =>
              mkPollRun (if is_Exception x then Returns (all_updates st)
                         else Raises x) st
          end), pre, e.
  split; [now destruct how |].
  rewrite <- Hh, <- Ha.
  split; [now destruct how |].
  split; [assumption |].
  split; [now destruct how |].
  split; [now destruct how |].
  now destruct how.
Qed.

End PollerRuns.

(** *** A scripted source *)

Lemma poll_loop_more_fuel {Source : Type}
      (getUpdates : Source -> option Z -> option Z -> outcome response * Source)
      (limit : Z) (fuel : nat) :
  forall (fuel' : nat) (st : poll_state Source)
         (r : poll_state Source * loop_exit),
    poll_loop getUpdates fuel limit st = Some r ->
    (fuel <= fuel')%nat ->
    poll_loop getUpdates fuel' limit st = Some r.
Proof.
  induction fuel as [| fuel IH]; intros fuel' st r; [discriminate |].
  intros Hrun Hle. destruct fuel' as [| fuel']; [lia |].
  simpl in *. destruct (poll_step getUpdates limit st) as [st' [how |]].
  - exact Hrun.
  - apply IH; [exact Hrun | lia].
Qed.

Lemma last_item_snoc {A : Type} (l : list A) (x : A) :
  last_item (l ++ [x]) = Returns x.
Proof. unfold last_item. now rewrite rev_app_distr. Qed.

Lemma scripted_step (limit : Z) (p body : list Update) (u : Update)
      (rest : list (outcome response)) (sent : Z) (acc : list Update)
      (log : list exchange) :
  p = (body ++ [u])%list ->
  poll_step scripted limit (mkPollState (ok_page p :: rest) sent acc log)
  = (mkPollState rest (update_id u + 1) (acc ++ p)
       (log ++ [mkExchange (Some sent)
                           (Some (Z.min 100 (limit - len acc))) (ok_page p)]),
     if (limit <=? len (acc ++ p)) || (len p <? 100) then Some ByBreak
     else None).
Proof.
  intros Hp. unfold poll_step. cbn [scripted source offset all_updates trace].
  unfold ok_page. cbn [ok result negb orb].
  assert (Hlen : (len p =? 0) = false).
  { apply Z.eqb_neq. rewrite len_zero, Hp. now destruct body. }
  rewrite Hlen. rewrite Hp at 1. rewrite last_item_snoc.
  now destruct ((limit <=? len (acc ++ p)) || (len p <? 100)).
Qed.

Lemma scripted_continue (limit : Z) (p body : list Update) (u : Update)
      (rest : list (outcome response)) (sent : Z) (acc : list Update)
      (log : list exchange) :
  p = (body ++ [u])%list ->
  len acc + len p < limit ->
  100 <= len p ->
  poll_step scripted limit (mkPollState (ok_page p :: rest) sent acc log)
  = (mkPollState rest (update_id u + 1) (acc ++ p)
       (log ++ [mkExchange (Some sent)
                           (Some (Z.min 100 (limit - len acc))) (ok_page p)]),
     None).
Proof.
  intros Hp Hlim Hfull. rewrite (scripted_step limit p body u); [| exact Hp].
  rewrite len_app.
  replace (limit <=? len acc + len p) with false by (symmetry; lia).
  replace (len p <? 100) with false by (symmetry; lia).
  reflexivity.
Qed.

Lemma scripted_break (limit : Z) (p body : list Update) (u : Update)
      (rest : list (outcome response)) (sent : Z) (acc : list Update)
      (log : list exchange) :
  p = (body ++ [u])%list ->
  limit <= len acc + len p \/ len p < 100 ->
  poll_step scripted limit (mkPollState (ok_page p :: rest) sent acc log)
  = (mkPollState rest (update_id u + 1) (acc ++ p)
       (log ++ [mkExchange (Some sent)
                           (Some (Z.min 100 (limit - len acc))) (ok_page p)]),
     Some ByBreak).
Proof.
  intros Hp Hstop. rewrite (scripted_step limit p body u); [| exact Hp].
  rewrite len_app.
  replace ((limit <=? len acc + len p) || (len p <? 100)) with true;
    [reflexivity |].
  symmetry. apply orb_true_iff. destruct Hstop; [left | right]; lia.
Qed.

(** Pages of 100, 100 and 37 updates under a limit of 1000. *)
Lemma three_pages (p1 p2 p3 : list Update) (rest : list (outcome response)) :
  List.length p1 = 100%nat ->
  List.length p2 = 100%nat ->
  List.length p3 = 37%nat ->
  exists r : poll_run (list (outcome response)),
    poll_updates scripted 1000 0
      (ok_page p1 :: ok_page p2 :: ok_page p3 :: rest) = Some r
    /\ returned r = Returns (p1 ++ p2 ++ p3)%list
    /\ len (p1 ++ p2 ++ p3) = 237
    /\ map reply (trace (final r)) = [ok_page p1; ok_page p2; ok_page p3]
    /\ source (final r) = rest.
Proof.
  intros H1 H2 H3.
  assert (L0 : len (@nil Update) = 0) by reflexivity.
  assert (L1 : len p1 = 100) by (unfold len; now rewrite H1).
  assert (L2 : len p2 = 100) by (unfold len; now rewrite H2).
  assert (L3 : len p3 = 37) by (unfold len; now rewrite H3).
  destruct (last_item_nonempty p1) as (u1 & _ & b1 & E1);
    [intros ->; discriminate |].
  destruct (last_item_nonempty p2) as (u2 & _ & b2 & E2);
    [intros ->; discriminate |].
  destruct (last_item_nonempty p3) as (u3 & _ & b3 & E3);
    [intros ->; discriminate |].
  assert (Hrun : exists st,
             poll_loop scripted 3 1000
               (mkPollState (ok_page p1 :: ok_page p2 :: ok_page p3 :: rest)
                            0 [] [])
             = Some (st, ByBreak)
             /\ all_updates st = (p1 ++ p2 ++ p3)%list
             /\ map reply (trace st) = [ok_page p1; ok_page p2; ok_page p3]
             /\ source st = rest).
  { cbn [poll_loop].
    rewrite (scripted_continue 1000 p1 b1 u1 _ _ _ _ E1)
      by (rewrite ?len_app, ?L0, ?L1; lia).
    rewrite (scripted_continue 1000 p2 b2 u2 _ _ _ _ E2)
      by (rewrite ?len_app, ?L0, ?L1, ?L2; lia).
    rewrite (scripted_break 1000 p3 b3 u3 _ _ _ _ E3)
      by (rewrite ?len_app, ?L0, ?L1, ?L2, ?L3; lia).
    eexists. split; [reflexivity |].
    cbn [all_updates trace source map reply app].
    rewrite <- app_assoc. repeat split; reflexivity. }
  destruct Hrun as (st & Hrun & Hall & Hlog & Hsrc).
  apply (poll_loop_more_fuel _ _ _ (S (Z.to_nat 1000))) in Hrun; [| lia].
  unfold poll_updates. rewrite Hrun. eexists. split; [reflexivity |].
  cbn [returned final]. rewrite Hall, !len_app, L1, L2, L3.
  repeat split; auto.
Qed.

Lemma ascending_below_last (l : list Update) (u : Update) :
  ascending (l ++ [u]) -> Forall (fun v => update_id v < update_id u + 1) (l ++ [u]).
Proof.
  unfold ascending. induction l as [| a l IH]; simpl; intros Hs.
  - constructor; [lia | constructor].
  - apply StronglySorted_inv in Hs as [Hs Ha].
    constructor; [| now apply IH].
    rewrite map_app in Ha. apply Forall_app in Ha as [_ Ha].
    apply Forall_inv in Ha. simpl in Ha. lia.
Qed.

Lemma get_all_updates_polls
      (token : string) (requests_json : request -> outcome json)
      (Source : Type)
      (getUpdates :
         Source -> option Z -> option Z -> outcome response * Source)
      (limit start : Z) (src : Source) (b : bool) :
  can_read_all_group_messages token requests_json = Returns b ->
  get_all_updates token requests_json getUpdates limit start src
  = poll_updates getUpdates limit start src.
Proof. intros Hb. unfold get_all_updates. now rewrite Hb. Qed.

Lemma sample_bot_info_read :
  can_read_all_group_messages "TOKEN" (answering sample_bot_info)
  = Returns false.
Proof. reflexivity. Qed.

(** C3. Once the capability lookup has come back, [get_all_updates]
    always comes back, and its loop goes on exactly as long as no stop
    test is met: an exchange is the last one iff the request raised, or
    the response has [ok = false], or its result is empty, or the
    accumulated count (the updates of the earlier pages plus this page)
    has reached [limit], or the page has fewer than 100 updates.  A source
    answering with pages of 100, 100 and 37 updates, polled with
    [limit = 1000], gives back the 237 updates after three requests,
    leaving the rest of the source untouched. *)
Theorem polling_stops_at_first_stop_test :
  forall (token : string) (requests_json : request -> outcome json)
         (can_read_all : bool),
    can_read_all_group_messages token requests_json = Returns can_read_all ->
    (forall (Source : Type)
            (getUpdates :
               Source -> option Z -> option Z -> outcome response * Source)
            (limit start : Z) (src : Source),
        exists r : poll_run Source,
          get_all_updates token requests_json getUpdates limit start src
          = Some r
          /\ trace (final r) <> []
          /\ all_updates (final r) = pages (trace (final r))
          /\ forall (pre : list exchange) (e : exchange)
                    (post : list exchange),
              trace (final r) = (pre ++ e :: post)%list ->
              (post = [] <->
               (exists x, reply e = Raises x)
               \/ (exists data,
                      reply e = Returns data
                      /\ (ok data = false
                          \/ result data = []
                          \/ limit <= len (pages pre) + len (result data)
                          \/ len (result data) < 100))))
    /\ (forall (p1 p2 p3 : list Update) (rest : list (outcome response)),
           List.length p1 = 100%nat ->
           List.length p2 = 100%nat ->
           List.length p3 = 37%nat ->
           exists r : poll_run (list (outcome response)),
             get_all_updates token requests_json scripted 1000 0
               (ok_page p1 :: ok_page p2 :: ok_page p3 :: rest) = Some r
             /\ returned r = Returns (p1 ++ p2 ++ p3)%list
             /\ len (p1 ++ p2 ++ p3) = 237
             /\ map reply (trace (final r))
                = [ok_page p1; ok_page p2; ok_page p3]
             /\ source (final r) = rest).
Proof.
  intros token requests_json can_read_all Hcap. split.
  - intros Source getUpdates limit start src.
    rewrite (get_all_updates_polls _ _ _ _ _ _ _ _ Hcap).
    destruct (poll_updates_run Source getUpdates limit start src)
      as (r & pre0 & e0 & Hr & Ht & Hl & Ha & _ & _).
    exists r. split; [exact Hr |]. rewrite Ht.
    split; [now destruct pre0 |]. split; [exact Ha |].
    intros pre e post Hsplit. rewrite Hsplit in Hl.
    apply loop_trace_at in Hl as (_ & Hstop & _).
    rewrite Hstop, stops_true. reflexivity.
  - intros p1 p2 p3 rest H1 H2 H3.
    rewrite (get_all_updates_polls _ _ _ _ _ _ _ _ Hcap).
    now apply three_pages.
Qed.

Lemma polling_stops_at_first_stop_test_witness :
  exists r : poll_run (list (outcome response)),
    get_all_updates "TOKEN" (answering sample_bot_info) scripted 1000 0
      [ok_page (page 1 100); ok_page (page 101 100); ok_page (page 201 37);
       ok_page (page 238 50)] = Some r
    /\ returned r = Returns (page 1 100 ++ page 101 100 ++ page 201 37)%list
    /\ len (page 1 100 ++ page 101 100 ++ page 201 37) = 237
    /\ map reply (trace (final r))
       = [ok_page (page 1 100); ok_page (page 101 100); ok_page (page 201 37)]
    /\ source (final r) = [ok_page (page 238 50)].
Proof.
  apply (proj2 (polling_stops_at_first_stop_test
                  "TOKEN" (answering sample_bot_info) false
                  sample_bot_info_read));
    reflexivity.
Defined.

(** C4. In every run of [get_all_updates] that reaches its loop, the
    first request carries the starting offset, and each later request
    follows a successful non-empty page and carries the [update_id] of
    the last update of that page plus one; after a last successful
    non-empty page the variable [offset] holds that value too.  When the
    ids of the page are ascending, every update of the page lies below
    the next offset, so none of them is asked for again. *)
Theorem next_offset_is_last_update_id_plus_one
        (token : string) (requests_json : request -> outcome json)
        (can_read_all : bool)
        (Source : Type)
        (getUpdates :
           Source -> option Z -> option Z -> outcome response * Source)
        (limit start : Z) (src : Source) :
  can_read_all_group_messages token requests_json = Returns can_read_all ->
  exists r : poll_run Source,
    get_all_updates token requests_json getUpdates limit start src = Some r
    /\ (forall e rest, trace (final r) = e :: rest ->
                       req_offset e = Some start)
    /\ (forall pre e1 e2 post,
           trace (final r) = (pre ++ e1 :: e2 :: post)%list ->
           exists data u,
             reply e1 = Returns data
             /\ ok data = true
             /\ result data <> []
             /\ last_item (result data) = Returns u
             /\ req_offset e2 = Some (update_id u + 1)
             /\ (ascending (result data) ->
                 Forall (fun v => update_id v < update_id u + 1)
                        (result data)))
    /\ (forall pre e data u,
           trace (final r) = (pre ++ [e])%list ->
           reply e = Returns data ->
           ok data = true ->
           last_item (result data) = Returns u ->
           offset (final r) = update_id u + 1).
Proof.
  intros Hcap. rewrite (get_all_updates_polls _ _ _ _ _ _ _ _ Hcap).
  destruct (poll_updates_run Source getUpdates limit start src)
    as (r & pre0 & e0 & Hr & Ht & Hl & _ & Ho & _).
  exists r. split; [exact Hr |]. rewrite Ht. split; [| split].
  - intros e rest Hsplit. rewrite Hsplit in Hl.
    apply (loop_trace_at limit []) in Hl. tauto.
  - intros pre e1 e2 post Hsplit. rewrite Hsplit in Hl.
    apply loop_trace_at in Hl as (_ & Hstop & _ & _ & Hnext).
    destruct (Hnext e2 post eq_refl) as (u & Hu & Hoff).
    destruct (stops limit (0 + len (pages pre)) e1) eqn:Hs.
    + pose proof (proj2 Hstop eq_refl). discriminate.
    + apply stops_false in Hs as (data & Hd & Hok & Hne & Hpage & _).
      rewrite Hpage in Hu. exists data, u. repeat split; auto.
      intros Hasc. destruct (last_item_nonempty _ Hne) as (u' & Hu' & l & El).
      rewrite Hu in Hu'. injection Hu' as <-. rewrite El in *.
      now apply ascending_below_last.
  - intros pre e data u Hsplit Hd Hok Hu.
    apply app_inj_tail in Hsplit as [_ <-].
    apply loop_trace_at in Hl as (_ & _ & _ & (sent & Hsent) & _).
    rewrite (Ho _ Hsent). unfold offset_after, page_of.
    now rewrite Hd, Hok, Hu.
Qed.

Lemma next_offset_is_last_update_id_plus_one_witness :
  exists (r : poll_run (list Update)) (e1 e2 e3 : exchange),
    get_all_updates "TOKEN" (answering sample_bot_info) queue 1000 0
      (page 1 250) = Some r
    /\ trace (final r) = [e1; e2; e3]
    /\ page_of e1 = page 1 100
    /\ req_offset e2 = Some (100 + 1)
    /\ Forall (fun v => update_id v < 100 + 1) (page 1 100).
Proof.
  destruct (next_offset_is_last_update_id_plus_one
              "TOKEN" (answering sample_bot_info) false
              (list Update) queue 1000 0 (page 1 250) sample_bot_info_read)
    as (r & Hr & _ & Hnext & _).
  pose proof Hr as Hc. vm_compute in Hc. injection Hc as Hc.
  rewrite <- Hc in Hnext. cbn [final trace] in Hnext.
  match type of Hnext with
  | context [[?a; ?b; ?c] = _] =>
      exists r, a, b, c;
      destruct (Hnext [] a b [c] eq_refl)
        as (data & u & Hd & _ & _ & Hu & Hoff & Hasc)
  end.
  cbn [reply] in Hd. injection Hd as <-.
  vm_compute in Hu. injection Hu as <-.
  split; [exact Hr |]. rewrite <- Hc. cbn [final trace].
  split; [reflexivity |]. split; [vm_compute; reflexivity |].
  split; [exact Hoff |].
  apply Hasc. unfold ascending. cbn [result].
  repeat (constructor; [| repeat (constructor; [reflexivity |]); constructor]).
  constructor.
Defined.

(** C8. A transport error (any [Exception], [RequestException] among
    them) raised by a request of the polling loop is not passed on:
    [get_all_updates] comes back, the failed request is the last one, and
    the value returned is the list accumulated before it, that is the
    pages of the earlier exchanges, unchanged (the empty list when the
    first request fails). *)
Theorem transport_error_returns_accumulated
        (token : string) (requests_json : request -> outcome json)
        (can_read_all : bool)
        (Source : Type)
        (getUpdates :
           Source -> option Z -> option Z -> outcome response * Source)
        (limit start : Z) (src : Source) :
  can_read_all_group_messages token requests_json = Returns can_read_all ->
  exists r : poll_run Source,
    get_all_updates token requests_json getUpdates limit start src = Some r
    /\ forall (pre : list exchange) (e : exchange) (post : list exchange)
              (x : exn),
        trace (final r) = (pre ++ e :: post)%list ->
        reply e = Raises x ->
        is_Exception x = true ->
        post = []
        /\ returned r = Returns (pages pre)
        /\ all_updates (final r) = pages pre.
Proof.
  intros Hcap. rewrite (get_all_updates_polls _ _ _ _ _ _ _ _ Hcap).
  destruct (poll_updates_run Source getUpdates limit start src)
    as (r & pre0 & e0 & Hr & Ht & Hl & Ha & _ & Hret).
  exists r. split; [exact Hr |].
  intros pre e post x Hsplit Hx Hexc.
  rewrite Ht in Hsplit. pose proof Hl as Hl'. rewrite Hsplit in Hl'.
  apply loop_trace_at in Hl' as (_ & Hstop & _).
  assert (Hpost : post = []).
  { apply Hstop, stops_true. eauto. }
  subst post. apply app_inj_tail in Hsplit as [-> ->].
  assert (Hpages : pages (pre ++ [e]) = pages pre).
  { rewrite pages_app. unfold pages at 2, page_of. simpl.
    rewrite Hx. simpl. now rewrite app_nil_r. }
  rewrite Ha, Hret, Hpages. unfold exit_after. rewrite Hx, Hexc. auto.
Qed.

Lemma transport_error_returns_accumulated_witness :
  exists r : poll_run (list (outcome response)),
    get_all_updates "TOKEN" (answering sample_bot_info) scripted 1000 0
      [ok_page (page 1 100); Raises (RequestException "Read timed out.");
       ok_page (page 101 100)] = Some r
    /\ returned r = Returns (page 1 100).
Proof.
  destruct (transport_error_returns_accumulated
              "TOKEN" (answering sample_bot_info) false
              (list (outcome response)) scripted 1000 0
              [ok_page (page 1 100);
               Raises (RequestException "Read timed out.");
               ok_page (page 101 100)] sample_bot_info_read)
    as (r & Hr & Hacc).
  exists r. split; [exact Hr |].
  pose proof Hr as Hc. vm_compute in Hc. injection Hc as Hc.
  rewrite <- Hc in Hacc. cbn [final trace] in Hacc.
  match type of Hacc with
  | context [[?a; ?b] = _] =>
      destruct (Hacc [a] b [] (RequestException "Read timed out.")
                     eq_refl eq_refl eq_refl) as (_ & Hret & _)
  end.
  rewrite Hc in Hret. rewrite Hret. vm_compute. reflexivity.
Defined.

(** C10. For [limit > 0], when every page holds at most as many updates
    as its request asked for, the list accumulated by [get_all_updates],
    and so the list it returns, has at most [limit] updates; each request
    asks for [min(100, limit - accumulated)] updates, [accumulated] being
    the number of updates of the earlier pages. *)
Theorem returned_updates_within_limit
        (token : string) (requests_json : request -> outcome json)
        (can_read_all : bool)
        (Source : Type)
        (getUpdates :
           Source -> option Z -> option Z -> outcome response * Source)
        (limit start : Z) (src : Source) :
  can_read_all_group_messages token requests_json = Returns can_read_all ->
  0 < limit ->
  exists r : poll_run Source,
    get_all_updates token requests_json getUpdates limit start src = Some r
    /\ (forall pre e post,
           trace (final r) = (pre ++ e :: post)%list ->
           req_limit e = Some (Z.min 100 (limit - len (pages pre))))
    /\ (Forall (fun e => forall l, req_limit e = Some l ->
                                   len (page_of e) <= l)
               (trace (final r)) ->
        len (all_updates (final r)) <= limit
        /\ forall l, returned r = Returns l -> len l <= limit).
Proof.
  intros Hcap Hpos. rewrite (get_all_updates_polls _ _ _ _ _ _ _ _ Hcap).
  destruct (poll_updates_run Source getUpdates limit start src)
    as (r & pre0 & e0 & Hr & Ht & Hl & Ha & _ & Hret).
  exists r. split; [exact Hr |]. rewrite Ht. split.
  - intros pre e post Hsplit. rewrite Hsplit in Hl.
    apply loop_trace_at in Hl as (Hlim & _). exact Hlim.
  - intros Hfit.
    pose proof (loop_trace_bounded limit _ _ _ Hl Hfit) as Hb.
    rewrite Ha. split; [lia |].
    intros l Hl'. rewrite Hret in Hl'.
    destruct (exit_after e0) as [| x]; [| destruct (is_Exception x)];
      try discriminate; injection Hl' as <-; lia.
Qed.

Lemma returned_updates_within_limit_witness :
  exists r : poll_run (list Update),
    get_all_updates "TOKEN" (answering sample_bot_info) queue 120 0
      (page 1 250) = Some r
    /\ map req_limit (trace (final r)) = [Some 100; Some 20]
    /\ len (all_updates (final r)) <= 120.
Proof.
  destruct (returned_updates_within_limit
              "TOKEN" (answering sample_bot_info) false
              (list Update) queue 120 0 (page 1 250)
              sample_bot_info_read ltac:(lia))
    as (r & Hr & _ & Hfit).
  exists r. split; [exact Hr |].
  pose proof Hr as Hc. vm_compute in Hc. injection Hc as Hc.
  split; [rewrite <- Hc; reflexivity |].
  refine (proj1 (Hfit _)). rewrite <- Hc. cbn [final trace].
  repeat (constructor; [intros l [= <-]; vm_compute; discriminate |]).
  constructor.
Defined.

(** ** Remote calls and exceptions *)

Lemma only_Exceptions_bind {A B : Type} (x : outcome A) (k : A -> outcome B) :
  only_Exceptions x ->
  (forall a, only_Exceptions (k a)) ->
  only_Exceptions (bind x k).
Proof. destruct x as [a | e]; simpl; auto. Qed.

Lemma only_Exceptions_subscript (j : json) (key : string) :
  only_Exceptions (subscript j key).
Proof.
  destruct j; simpl; try reflexivity.
  destruct (assoc key items); simpl; auto.
Qed.

Lemma only_Exceptions_method_of (file_type : string)
      (table : list (string * string)) :
  only_Exceptions (method_of file_type table).
Proof.
  induction table as [| [k v] rest IH]; simpl; [reflexivity |].
  destruct (String.eqb k file_type); simpl; auto.
Qed.

Lemma try_except_Exception_returns {A : Type} (body : outcome A)
      (handler : exn -> outcome A) :
  only_Exceptions body ->
  (forall e, exists v, handler e = Returns v) ->
  exists v, try_except_Exception body handler = Returns v.
Proof.
  destruct body as [a | e]; simpl; [eauto |].
  intros -> Hh. apply Hh.
Qed.

Section RemoteFacts.

Variable token : string.
Variable requests_json : request -> outcome json.
Variable requests_get_stream : string -> outcome http_response.
Variable write_download :
  http_response -> string -> option string -> outcome string.
Variable guess_type : string -> option string.
Variable open_file : string -> outcome string.
Variable format_str : json -> string.
Variable Source : Type.
Variable getUpdates :
  Source -> option Z -> option Z -> outcome response * Source.

Hypothesis requests_json_exn : forall rq, only_Exceptions (requests_json rq).
Hypothesis requests_get_stream_exn :
  forall u, only_Exceptions (requests_get_stream u).
Hypothesis write_download_exn :
  forall resp file_id filename,
    only_Exceptions (write_download resp file_id filename).
Hypothesis open_file_exn : forall path, only_Exceptions (open_file path).
Hypothesis getUpdates_exn :
  forall s o l, only_Exceptions (fst (getUpdates s o l)).

Lemma api_call_returns (rq : request) :
  exists j, api_call requests_json rq = Returns j.
Proof.
  apply try_except_Exception_returns; [apply requests_json_exn | eauto].
Qed.

Lemma send_file_returns (chat_id : ChatId) (file_path caption : string) :
  exists j, send_file token requests_json guess_type open_file
                      chat_id file_path caption = Returns j.
Proof.
  apply try_except_Exception_returns; [| eauto].
  apply only_Exceptions_bind; [apply only_Exceptions_method_of |].
  intros method. apply only_Exceptions_bind; [apply open_file_exn |].
  intros file. apply requests_json_exn.
Qed.

Lemma get_file_download_url_returns (file_id : string) :
  exists v, get_file_download_url token requests_json format_str file_id
            = Returns v.
Proof.
  apply try_except_Exception_returns; [| eauto].
  apply only_Exceptions_bind; [apply requests_json_exn |].
  intros data. apply only_Exceptions_bind;
    [apply only_Exceptions_subscript |].
  intros is_ok. destruct (truthy is_ok); [| exact I].
  apply only_Exceptions_bind; [apply only_Exceptions_subscript |].
  intros res. apply only_Exceptions_bind;
    [apply only_Exceptions_subscript |].
  intros file_path. exact I.
Qed.

Lemma download_file_returns (file_id : string) (filename : option string) :
  exists v, download_file token requests_json requests_get_stream
                          write_download format_str file_id filename
            = Returns v.
Proof.
  unfold download_file.
  destruct (get_file_download_url_returns file_id) as ([u |] & ->); simpl;
    [| eauto].
  destruct (String.eqb u ""); [eauto |].
  apply try_except_Exception_returns; [| eauto].
  apply only_Exceptions_bind; [apply requests_get_stream_exn |].
  intros response. destruct (status_code response =? 200); [| exact I].
  apply only_Exceptions_bind; [apply write_download_exn |].
  intros filepath. exact I.
Qed.

Lemma poll_loop_exit_Exception (limit : Z) (fuel : nat) :
  forall (st st' : poll_state Source) (x : exn),
    poll_loop getUpdates fuel limit st = Some (st', ByException x) ->
    is_Exception x = true.
Proof.
  induction fuel as [| fuel IH]; intros st st' x; [discriminate |].
  simpl. unfold poll_step.
  pose proof (getUpdates_exn (source st) (Some (offset st))
                (Some (Z.min 100 (limit - len (all_updates st))))) as Hx.
  destruct (getUpdates (source st) (Some (offset st))
              (Some (Z.min 100 (limit - len (all_updates st)))))
    as [[data | e] src']; simpl in Hx.
  - destruct (negb (ok data) || (len (result data) =? 0));
      [discriminate |].
    unfold last_item. destruct (rev (result data)) as [| u l].
    + intros [= _ <-]. reflexivity.
    + destruct ((limit <=? len (all_updates st ++ result data))
                || (len (result data) <? 100)); [discriminate |].
      apply IH.
  - intros [= _ <-]. exact Hx.
Qed.

Lemma poll_updates_returns (limit start : Z) (src : Source) :
  exists r l, poll_updates getUpdates limit start src = Some r
              /\ returned r = Returns l.
Proof.
  unfold poll_updates.
  destruct (poll_loop_total Source getUpdates limit (S (Z.to_nat limit))
              (mkPollState src start [] [])) as [[st how] Hrun].
  { simpl. unfold len. simpl. lia. }
  rewrite Hrun. destruct how as [| x];
    [do 2 eexists; split; reflexivity |].
  apply poll_loop_exit_Exception in Hrun. rewrite Hrun.
  do 2 eexists; split; reflexivity.
Qed.

(** On a platform that raises nothing but [Exception]s, each call but
    [monitor_messages] returns a value, once the capability lookup has
    come back. *)
Lemma run_returns (fuel : nat) (src : Source) (c : remote_call) :
  (exists b, can_read_all_group_messages token requests_json = Returns b) ->
  is_monitor c = false ->
  exists v, run token requests_json requests_get_stream write_download
                guess_type open_file format_str getUpdates fuel src c
            = Some (Returns v).
Proof.
  intros (b & Hb) Hc.
  destruct c as [| ch | ch uid | ch | ch | ch | ch | ch txt | ch mid
                 | ch path cap | fid | fid fname | lim off |];
    try discriminate; simpl;
    unfold get_bot_info, get_chat_info, get_chat_member,
      get_chat_administrators, get_chat_member_count, get_my_commands,
      get_my_default_admin_rights, send_message, delete_message, chat_call;
    try (match goal with
         | |- context [api_call _ ?rq] =>
             destruct (api_call_returns rq) as (j & ->)
         end; simpl; eauto).
  - destruct (send_file_returns ch path cap) as (j & ->).
    simpl. eauto.
  - destruct (get_file_download_url_returns fid) as (v & ->).
    simpl. eauto.
  - destruct (download_file_returns fid fname) as (v & ->).
    simpl. eauto.
  - rewrite (get_all_updates_polls _ _ _ _ lim off src b Hb).
    destruct (poll_updates_returns lim off src) as (r & l & -> & ->).
    simpl. eauto.
Qed.

End RemoteFacts.

(** *** Transport failures stay inside *)

Lemma contained_bind {A B : Type} (x : outcome A) (k : A -> outcome B) :
  contained x -> (forall a, contained (k a)) -> contained (bind x k).
Proof. destruct x as [a | e]; simpl; auto. Qed.

Lemma contained_try_except {A : Type} (body : outcome A)
      (handler : exn -> outcome A) :
  (forall e, contained (handler e)) ->
  contained (try_except_Exception body handler).
Proof.
  intros Hh. destruct body as [a | e]; simpl; [exact I |].
  destruct (is_Exception e) eqn:He; [apply Hh |].
  destruct e; try discriminate. reflexivity.
Qed.

Lemma contained_dict_get (j : json) (key : string) (default : json) :
  contained (dict_get j key default).
Proof. destruct j; simpl; auto. Qed.

Section Containment.

Variable token : string.
Variable requests_json : request -> outcome json.
Variable requests_get_stream : string -> outcome http_response.
Variable write_download :
  http_response -> string -> option string -> outcome string.
Variable guess_type : string -> option string.
Variable open_file : string -> outcome string.
Variable format_str : json -> string.
Variable Source : Type.
Variable getUpdates :
  Source -> option Z -> option Z -> outcome response * Source.

Lemma api_call_contained (rq : request) :
  contained (api_call requests_json rq).
Proof. apply contained_try_except. intros e. exact I. Qed.

Lemma capability_lookup_contained :
  contained (can_read_all_group_messages token requests_json).
Proof.
  unfold can_read_all_group_messages, get_bot_info.
  apply contained_bind; [apply api_call_contained |].
  intros bot_info. apply contained_bind; [apply contained_dict_get |].
  intros bot_data. apply contained_bind; [apply contained_dict_get |].
  intros flag. exact I.
Qed.

Lemma download_file_contained (file_id : string) (filename : option string) :
  contained (download_file token requests_json requests_get_stream
                           write_download format_str file_id filename).
Proof.
  unfold download_file. apply contained_bind.
  - apply contained_try_except. intros e. exact I.
  - intros [u |]; [| exact I].
    destruct (String.eqb u ""); [exact I |].
    apply contained_try_except. intros e. exact I.
Qed.

Lemma poll_updates_contained (limit start : Z) (src : Source) :
  exists r, poll_updates getUpdates limit start src = Some r
            /\ contained (returned r).
Proof.
  unfold poll_updates.
  destruct (poll_loop_total Source getUpdates limit (S (Z.to_nat limit))
              (mkPollState src start [] [])) as [[st how] Hrun].
  { simpl. unfold len. simpl. lia. }
  rewrite Hrun. destruct how as [| x].
  - eexists. split; [reflexivity | exact I].
  - eexists. split; [reflexivity |]. simpl.
    destruct x; simpl; auto.
Qed.

Lemma get_all_updates_contained (limit start : Z) (src : Source) :
  exists r, get_all_updates token requests_json getUpdates limit start src
            = Some r
            /\ contained (returned r).
Proof.
  unfold get_all_updates.
  pose proof capability_lookup_contained as Hcap.
  destruct (can_read_all_group_messages token requests_json) as [b | e].
  - apply poll_updates_contained.
  - eexists. split; [reflexivity | exact Hcap].
Qed.

(** No call but [monitor_messages] hands a transport failure on. *)
Lemma run_contained (fuel : nat) (src : Source) (c : remote_call) :
  is_monitor c = false ->
  exists o, run token requests_json requests_get_stream write_download
                guess_type open_file format_str getUpdates fuel src c
            = Some o
            /\ contained o.
Proof.
  intros Hc.
  destruct c as [| ch | ch uid | ch | ch | ch | ch | ch txt | ch mid
                 | ch path cap | fid | fid fname | lim off |];
    try discriminate; simpl;
    try (eexists; split; [reflexivity |];
         apply contained_bind; [| intros; exact I];
         first [ apply api_call_contained
               | apply download_file_contained
               | apply contained_try_except; intros e; exact I ]).
  destruct (get_all_updates_contained lim off src) as (r & -> & Hr).
  eexists. split; [reflexivity |].
  apply contained_bind; [exact Hr | intros; exact I].
Qed.

End Containment.

(** [monitor_messages] catches [KeyboardInterrupt] only: a failing
    request ends it with the exception of that request. *)
Lemma monitor_messages_lets_errors_out
      (token : string) (requests_json : request -> outcome json)
      (Source : Type)
      (getUpdates :
         Source -> option Z -> option Z -> outcome response * Source)
      (src : Source) (fuel : nat) (msg : string) (b : bool) :
  can_read_all_group_messages token requests_json = Returns b ->
  fst (getUpdates src None None) = Raises (RequestException msg) ->
  monitor_messages token requests_json getUpdates (S fuel) src
  = Some (Raises (RequestException msg)).
Proof.
  intros Hb Hfail. unfold monitor_messages. rewrite Hb. simpl.
  destruct (getUpdates src None None) as [r src']. simpl in Hfail.
  now rewrite Hfail.
Qed.

(** C7, as stated, fails: with the network down (every request raises
    a connection error) [get_file_download_url] gives [None] and
    [get_all_updates] gives the empty list, neither of them the
    [{ok: false, error}] shape, and [monitor_messages] lets the exception
    out to its caller. *)
Lemma not_every_remote_call_gives_error_result :
  run_while_down (RequestException "Connection refused")
                 (Call_get_file_download_url "BQACAgQ")
  = Some (Returns (VOptStr None))
  /\ run_while_down (RequestException "Connection refused")
                    (Call_get_all_updates 100 0)
     = Some (Returns (VUpdates []))
  /\ run_while_down (RequestException "Connection refused")
                    Call_monitor_messages
     = Some (Raises (RequestException "Connection refused"))
  /\ ~ (forall c : remote_call,
           exists err : string,
             run_while_down (RequestException "Connection refused") c
             = Some (Returns (VJson (error_result err)))).
Proof.
  repeat split; try reflexivity.
  intros Hall.
  destruct (Hall (Call_get_file_download_url "BQACAgQ")) as (err & Herr).
  discriminate Herr.
Qed.

(** C7, as the code has it.  Apart from [monitor_messages], every
    remote call comes back without handing a transport failure
    ([RequestException]) to its caller, whatever the platform answers and
    whenever it fails.  With the network down, the wrappers whose result
    is the platform's decoded answer ([get_bot_info], [get_chat_info],
    [get_chat_member], [get_chat_administrators], [get_chat_member_count],
    [get_my_commands], [get_my_default_admin_rights], [send_message],
    [delete_message], [send_file]) return
    [{'ok': False, 'error': str(e)}]; [get_file_download_url] and
    [download_file] return [None]; [get_all_updates] returns the empty
    list. *)
Theorem remote_calls_contain_transport_failures :
  (forall (token : string)
          (requests_json : request -> outcome json)
          (requests_get_stream : string -> outcome http_response)
          (write_download :
             http_response -> string -> option string -> outcome string)
          (guess_type : string -> option string)
          (open_file : string -> outcome string)
          (format_str : json -> string)
          (Source : Type)
          (getUpdates :
             Source -> option Z -> option Z -> outcome response * Source)
          (fuel : nat) (src : Source) (c : remote_call),
      is_monitor c = false ->
      exists o, run token requests_json requests_get_stream write_download
                    guess_type open_file format_str getUpdates fuel src c
                = Some o
                /\ forall msg, o <> Raises (RequestException msg))
  /\ (forall (e : exn) (c : remote_call),
         is_Exception e = true ->
         match c with
         | Call_monitor_messages => True
         | Call_get_file_download_url _ | Call_download_file _ _ =>
             run_while_down e c = Some (Returns (VOptStr None))
         | Call_get_all_updates _ _ =>
             run_while_down e c = Some (Returns (VUpdates []))
         | _ =>
             run_while_down e c
             = Some (Returns (VJson (error_result (str_of_exn e))))
         end).
Proof.
  split.
  - intros token requests_json requests_get_stream write_download guess_type
           open_file format_str Source getUpdates fuel src c Hc.
    destruct (run_contained token requests_json requests_get_stream
                write_download guess_type open_file format_str Source
                getUpdates fuel src c Hc) as (o & Ho & Hin).
    exists o. split; [exact Ho |].
    intros msg ->. discriminate Hin.
  - intros e c He.
    destruct c as [| ch | ch uid | ch | ch | ch | ch | ch txt | ch mid
                   | ch path cap | fid | fid fname | lim off |];
      try exact I;
      unfold run_while_down, run, get_bot_info, get_chat_info,
        get_chat_member, get_chat_administrators, get_chat_member_count,
        get_my_commands, get_my_default_admin_rights, send_message,
        delete_message, chat_call, api_call, send_file,
        download_file, get_file_download_url, get_all_updates,
        can_read_all_group_messages, get_bot_info, api_call, poll_updates,
        down, down_source;
      simpl; rewrite ?He; reflexivity.
Qed.

Lemma remote_calls_contain_transport_failures_witness :
  run_while_down (RequestException "Connection refused")
                 (Call_send_message (ChatIdStr "-1001") "hello")
  = Some (Returns (VJson (error_result "Connection refused")))
  /\ run "TOKEN"
         (answering
            (JDict [("ok", JBool true);
                    ("result",
                     JDict [("file_path", JStr "documents/file_1.pdf")])]))
         (down (RequestException "Connection reset"))
         (fun _ _ _ => Returns "downloads/document/file_1.pdf")
         (fun _ => None) (fun _ => Returns "")
         (fun j => match j with JStr s => s | _ => "" end)
         (down_source (RequestException "Connection reset")) 1 tt
         (Call_download_file "BQACAgQ" None)
     = Some (Returns (VOptStr None)).
Proof.
  split.
  - exact (proj2 remote_calls_contain_transport_failures
                 (RequestException "Connection refused")
                 (Call_send_message (ChatIdStr "-1001") "hello") eq_refl).
  - destruct (proj1 remote_calls_contain_transport_failures
                     "TOKEN"
                     (answering
                        (JDict [("ok", JBool true);
                                ("result",
                                 JDict [("file_path",
                                         JStr "documents/file_1.pdf")])]))
                     (down (RequestException "Connection reset"))
                     (fun _ _ _ => Returns "downloads/document/file_1.pdf")
                     (fun _ => None) (fun _ => Returns "")
                     (fun j => match j with JStr s => s | _ => "" end)
                     unit (down_source (RequestException "Connection reset"))
                     1%nat tt (Call_download_file "BQACAgQ" None) eq_refl)
      as (o & Ho & Hin).
    rewrite Ho. vm_compute in Ho. injection Ho as <-. reflexivity.
Defined.

(* ================================================================== *)
(** * Part II, continued. The rest of the program                      *)
(* ================================================================== *)

(** ** The projection, beyond the claims *)

Lemma project_messages_app (chat_filter : option ChatId) (can_read_all : bool)
      (us1 us2 : list Update) :
  project_messages chat_filter can_read_all (us1 ++ us2)
  = (project_messages chat_filter can_read_all us1
     ++ project_messages chat_filter can_read_all us2)%list.
Proof.
  induction us1 as [| u us1 IH]; simpl; [reflexivity |].
  destruct (project_update chat_filter can_read_all u); simpl;
    now rewrite IH.
Qed.

(** X1. The two filters of the projection act independently of each
    other and of the order of the updates: projecting under a chat filter
    is projecting without one and keeping the records of that chat;
    projecting in privacy mode is projecting with full read access and
    keeping the visible messages; and the projection of a concatenation
    is the concatenation of the projections, so an update fetched twice
    is listed twice. *)
Theorem projection_factorises
        (chat_filter : option ChatId) (can_read_all : bool)
        (updates : list Update) :
  project_messages chat_filter can_read_all updates
  = filter (fun r => negb (chat_mismatch chat_filter (rec_message r)))
           (project_messages None can_read_all updates)
  /\ project_messages chat_filter false updates
     = filter (fun r => is_visible (rec_message r))
              (project_messages chat_filter true updates)
  /\ (forall more : list Update,
         project_messages chat_filter can_read_all (updates ++ more)
         = (project_messages chat_filter can_read_all updates
            ++ project_messages chat_filter can_read_all more)%list)
  /\ project_messages chat_filter can_read_all (updates ++ updates)
     = (project_messages chat_filter can_read_all updates
        ++ project_messages chat_filter can_read_all updates)%list.
Proof.
  split; [| split; [| split]].
  - induction updates as [| u rest IH]; simpl; [reflexivity |].
    unfold project_update. destruct (embedded_message u) as [m |];
      [| exact IH].
    simpl. destruct (negb can_read_all && negb (is_visible m)).
    + destruct (chat_mismatch chat_filter m); exact IH.
    + simpl. destruct (chat_mismatch chat_filter m); simpl;
        now rewrite IH.
  - induction updates as [| u rest IH]; simpl; [reflexivity |].
    unfold project_update. destruct (embedded_message u) as [m |];
      [| exact IH].
    destruct (chat_mismatch chat_filter m); [exact IH |].
    simpl. destruct (is_visible m); simpl; now rewrite IH.
  - intros more. apply project_messages_app.
  - apply project_messages_app.
Qed.

Lemma str_of_int_nonempty (n : Z) : PyStr.str_of_int n <> "".
Proof.
  unfold PyStr.str_of_int, NilZero.string_of_int, NilZero.string_of_uint.
  destruct (Z.to_int n) as [d | d]; [| discriminate].
  destruct d; discriminate.
Qed.

Lemma str_of_int_inj (a b : Z) :
  PyStr.str_of_int a = PyStr.str_of_int b -> a = b.
Proof.
  unfold PyStr.str_of_int. intros H.
  apply DecimalZ.to_int_inj.
  assert (Hn : forall z, Z.to_int z <> Decimal.Pos Decimal.Nil
                         /\ Z.to_int z <> Decimal.Neg Decimal.Nil).
  { intros [| p | p]; simpl; split; try discriminate;
      intros [= Hp]; now apply DecimalPos.Unsigned.to_uint_nonnil in Hp. }
  apply (f_equal NilZero.int_of_string) in H.
  rewrite !NilZero.isi in H by apply Hn.
  now injection H.
Qed.

Lemma project_messages_ext (f1 f2 : option ChatId) (can_read_all : bool)
      (updates : list Update) :
  (forall m, chat_mismatch f1 m = chat_mismatch f2 m) ->
  project_messages f1 can_read_all updates
  = project_messages f2 can_read_all updates.
Proof.
  intros Hsame. induction updates as [| u rest IH]; simpl; [reflexivity |].
  unfold project_update. destruct (embedded_message u) as [m |];
    [| exact IH].
  rewrite (Hsame m). now rewrite IH.
Qed.

(** X2. The chat filter compares the decimal text of the ids.  A filter
    given as the integer 0 or as the empty string is no filter at all; a
    non-zero integer and its decimal text are the same filter; and under
    a non-zero integer filter every record listed belongs to that chat. *)
Theorem chat_filter_is_string_normalised
        (can_read_all : bool) (updates : list Update) :
  (forall c : ChatId,
      chat_id_truthy (Some c) = false ->
      project_messages (Some c) can_read_all updates
      = project_messages None can_read_all updates)
  /\ project_messages (Some (ChatIdInt 0)) can_read_all updates
     = project_messages None can_read_all updates
  /\ (forall n : Z,
         n <> 0 ->
         project_messages (Some (ChatIdInt n)) can_read_all updates
         = project_messages (Some (ChatIdStr (PyStr.str_of_int n)))
                            can_read_all updates)
  /\ (forall (n : Z) (r : ProjectedMessageRecord),
         n <> 0 ->
         In r (project_messages (Some (ChatIdInt n)) can_read_all updates) ->
         chat_id (chat (rec_message r)) = n).
Proof.
  assert (Hfalsy : forall c, chat_id_truthy (Some c) = false ->
                             project_messages (Some c) can_read_all updates
                             = project_messages None can_read_all updates).
  { intros c Hc. apply project_messages_ext. intros m.
    unfold chat_mismatch. now rewrite Hc. }
  split; [exact Hfalsy |]. split; [now apply Hfalsy |]. split.
  - intros n Hn. apply project_messages_ext. intros m.
    unfold chat_mismatch, chat_id_truthy, str_of_chat_id.
    replace (n =? 0) with false by (symmetry; now apply Z.eqb_neq).
    replace (String.eqb (PyStr.str_of_int n) "") with false; [reflexivity |].
    symmetry. apply String.eqb_neq, str_of_int_nonempty.
  - intros n r Hn Hin. apply in_history in Hin as (u & _ & Hp).
    apply project_update_some in Hp as (m & _ & Hc & _ & ->). simpl.
    unfold chat_mismatch, chat_id_truthy, str_of_chat_id in Hc.
    replace (n =? 0) with false in Hc by (symmetry; now apply Z.eqb_neq).
    simpl in Hc. apply negb_false_iff, String.eqb_eq in Hc.
    now apply str_of_int_inj.
Qed.

Lemma chat_filter_is_string_normalised_witness :
  project_messages (Some (ChatIdInt (-1001))) true
    [update_with 1 (text_message group_chat "hello");
     update_with 2 (text_message private_chat "hi")]
  = project_messages (Some (ChatIdStr "-1001")) true
      [update_with 1 (text_message group_chat "hello");
       update_with 2 (text_message private_chat "hi")].
Proof.
  apply (proj1 (proj2 (proj2 (chat_filter_is_string_normalised true _)))
               (-1001)).
  discriminate.
Defined.

(** ** Message listings *)

Lemma filter_length_split {A : Type} (p q : A -> bool) (l : list A) :
  (forall x, q x = negb (p x)) ->
  len (filter p l) + len (filter q l) = len l.
Proof.
  intros Hq.
  assert (H : (List.length (filter p l) + List.length (filter q l)
               = List.length l)%nat).
  { induction l as [| x l IH]; simpl; [reflexivity |].
    rewrite (Hq x). destruct (p x); simpl; lia. }
  unfold len. lia.
Qed.

Lemma direction_eqb_eq (a b : Direction) : direction_eqb a b = true <-> a = b.
Proof. destruct a, b; simpl; split; congruence. Qed.

(** X3. The received and the sent listing split the history: each
    record is in exactly one of them and the two counts add up.  For a
    history produced by the projection, every sent record carries a
    sender, flagged as a bot, so reading [message['from']] in
    [display_sent_messages] cannot fail; no received record is flagged. *)
Theorem listings_split_history
        (chat_filter : option ChatId) (can_read_all : bool)
        (updates : list Update) :
  let history := project_messages chat_filter can_read_all updates in
  len (received_messages history) + len (sent_messages history) = len history
  /\ (forall r, In r history <->
                In r (received_messages history) \/ In r (sent_messages history))
  /\ (forall r, In r (received_messages history) ->
                In r (sent_messages history) -> False)
  /\ Forall (fun r => exists s, from (rec_message r) = Some s
                                /\ is_bot s = true
                                /\ rec_is_bot r = true)
            (sent_messages history)
  /\ Forall (fun r => rec_is_bot r = false) (received_messages history).
Proof.
  intros history. unfold received_messages, sent_messages.
  split; [| split; [| split; [| split]]].
  - apply filter_length_split. intros x. now destruct (direction x).
  - intros r. rewrite !filter_In, !direction_eqb_eq.
    destruct (direction r); intuition congruence.
  - intros r. rewrite !filter_In, !direction_eqb_eq. intuition congruence.
  - apply Forall_forall. intros r Hr.
    apply filter_In in Hr as [Hin Hd]. apply direction_eqb_eq in Hd.
    apply in_history in Hin as (u & _ & Hp).
    apply project_update_some in Hp as (m & _ & _ & _ & ->).
    simpl in *. unfold from_is_bot in *.
    destruct (from m) as [s |]; [| discriminate].
    exists s. destruct (is_bot s); [auto | discriminate].
  - apply Forall_forall. intros r Hr.
    apply filter_In in Hr as [Hin Hd]. apply direction_eqb_eq in Hd.
    apply in_history in Hin as (u & _ & Hp).
    apply project_update_some in Hp as (m & _ & _ & _ & ->).
    simpl in *. now destruct (from_is_bot m).
Qed.

Lemma listings_split_history_witness :
  len (received_messages
         (project_messages None true
            [update_with 1 (text_message group_chat "hello");
             update_with 2 (photo_message private_chat)]))
  + len (sent_messages
           (project_messages None true
              [update_with 1 (text_message group_chat "hello");
               update_with 2 (photo_message private_chat)]))
  = 2.
Proof.
  exact (proj1 (listings_split_history None true
                  [update_with 1 (text_message group_chat "hello");
                   update_with 2 (photo_message private_chat)])).
Defined.









(** ** Fetching, beyond the claims *)

(** X5. [get_complete_message_history] always comes back and never
    hands a transport failure to its caller; with the network down it
    returns the empty history, which is also what a chat without
    messages gives. *)
Theorem history_survives_transport_failures :
  (forall (token : string) (requests_json : request -> outcome json)
          (Source : Type)
          (getUpdates :
             Source -> option Z -> option Z -> outcome response * Source)
          (chat_filter : option ChatId) (limit : Z) (src : Source),
      exists o,
        get_complete_message_history token requests_json getUpdates
          chat_filter limit src = Some o
        /\ forall msg, o <> Raises (RequestException msg))
  /\ (forall (token : string) (e : exn) (chat_filter : option ChatId)
             (limit : Z),
         is_Exception e = true ->
         get_complete_message_history token (down e) (down_source e)
           chat_filter limit tt
         = Some (Returns [])).
Proof.
  split.
  - intros token requests_json Source getUpdates chat_filter limit src.
    unfold get_complete_message_history.
    destruct (get_all_updates_contained token requests_json Source getUpdates
                limit 0 src) as (r & -> & Hr).
    eexists. split; [reflexivity |].
    assert (Hc : contained
                   (all_updates <- returned r ;;
                    can_read_all <- can_read_all_group_messages
                                      token requests_json ;;
                    Returns (project_messages chat_filter can_read_all
                                              all_updates))).
    { apply contained_bind; [exact Hr |]. intros l.
      apply contained_bind; [apply capability_lookup_contained |].
      intros b. exact I. }
    intros msg Heq. rewrite Heq in Hc. discriminate Hc.
  - intros token e chat_filter limit He.
    unfold get_complete_message_history, get_all_updates,
      can_read_all_group_messages, get_bot_info, api_call, poll_updates,
      down, down_source.
    simpl. rewrite ?He. simpl. rewrite ?He. reflexivity.
Qed.

Lemma history_survives_transport_failures_witness :
  get_complete_message_history "TOKEN"
    (down (RequestException "Connection refused"))
    (down_source (RequestException "Connection refused"))
    (Some (ChatIdStr "-1001")) 1000 tt
  = Some (Returns []).
Proof.
  apply (proj2 history_survives_transport_failures). reflexivity.
Defined.





Lemma loop_trace_length (limit : Z) (t : list exchange) :
  forall start before : Z,
    before < limit ->
    loop_trace limit start before t ->
    len t <= (limit - before + 99) / 100.
Proof.
  induction t as [| e rest IH]; intros start before Hb; simpl; [tauto |].
  intros (_ & _ & Hrest).
  destruct rest as [| e2 rest].
  - unfold len. simpl.
    assert (1 <= (limit - before + 99) / 100);
      [apply Z.div_le_lower_bound; lia | lia].
  - destruct Hrest as (Hs & u & _ & Hnext).
    apply stops_false in Hs as (data & _ & _ & _ & Hpage & Hlt & Hfull).
    rewrite Hpage in Hnext.
    apply IH in Hnext; [| lia].
    assert (Hstep : (limit - (before + len (result data)) + 99) / 100
                    <= (limit - before + 99) / 100 - 1).
    { replace (limit - before + 99)
        with ((limit - before - 100 + 99) + 1 * 100) by lia.
      rewrite Z.div_add by lia.
      assert ((limit - (before + len (result data)) + 99) / 100
              <= (limit - before - 100 + 99) / 100);
        [apply Z.div_le_mono; lia | lia]. }
    change (len (e :: e2 :: rest))
      with (Z.of_nat (S (List.length (e2 :: rest)))).
    change (len (e2 :: rest)) with (Z.of_nat (List.length (e2 :: rest)))
      in Hnext.
    rewrite Nat2Z.inj_succ.
    generalize dependent (Z.of_nat (List.length (e2 :: rest))).
    intros n Hn. lia.
Qed.

(** X7. For [limit > 0], [get_all_updates] makes at most
    [ceil(limit / 100)] requests to the platform, whatever the platform
    answers. *)
Theorem requests_bounded_by_limit
        (token : string) (requests_json : request -> outcome json)
        (can_read_all : bool)
        (Source : Type)
        (getUpdates :
           Source -> option Z -> option Z -> outcome response * Source)
        (limit start : Z) (src : Source) :
  can_read_all_group_messages token requests_json = Returns can_read_all ->
  0 < limit ->
  exists r : poll_run Source,
    get_all_updates token requests_json getUpdates limit start src = Some r
    /\ 1 <= len (trace (final r)) <= (limit + 99) / 100.
Proof.
  intros Hcap Hpos. rewrite (get_all_updates_polls _ _ _ _ _ _ _ _ Hcap).
  destruct (poll_updates_run Source getUpdates limit start src)
    as (r & pre & e & Hr & Ht & Hl & _).
  exists r. split; [exact Hr |]. rewrite Ht. split.
  - rewrite len_app. pose proof (len_nonneg pre). unfold len at 2. simpl. lia.
  - apply loop_trace_length in Hl; [| lia].
    now rewrite Z.sub_0_r in Hl.
Qed.

Lemma requests_bounded_by_limit_witness :
  exists r : poll_run (list Update),
    get_all_updates "TOKEN" (answering sample_bot_info) queue 250 0
      (page 1 1000) = Some r
    /\ 1 <= len (trace (final r)) <= 3.
Proof.
  exact (requests_bounded_by_limit
           "TOKEN" (answering sample_bot_info) false
           (list Update) queue 250 0 (page 1 1000)
           sample_bot_info_read ltac:(lia)).
Defined.

(** ** Live monitoring *)




(** ** Helpers built on the wrappers *)

(** X9. [get_chat_type] gives [None] when the lookup of the chat fails
    in transport or is answered with a falsy [ok]; it gives the chat's
    type (or [None] if the chat data has none) when the answer is ok;
    and an ok answer without ['result'] makes it raise [KeyError]. *)
Theorem get_chat_type_outcomes
        (token : string) (requests_json : request -> outcome json)
        (chat : ChatId) :
  let rq := {| verb := POST; url := base_url token ++ "/getChat";
               data := [("chat_id", str_of_chat_id chat)];
               upload := None |} in
  (forall e, requests_json rq = Raises e -> is_Exception e = true ->
             get_chat_type token requests_json chat = Returns JNull)
  /\ (forall items flag,
         requests_json rq = Returns (JDict items) ->
         assoc "ok" items = Some flag ->
         truthy flag = false ->
         get_chat_type token requests_json chat = Returns JNull)
  /\ (forall items flag chat_data,
         requests_json rq = Returns (JDict items) ->
         assoc "ok" items = Some flag ->
         truthy flag = true ->
         assoc "result" items = Some (JDict chat_data) ->
         get_chat_type token requests_json chat
         = Returns (match assoc "type" chat_data with
                    | Some t => t
                    | None => JNull
                    end))
  /\ (forall items flag,
         requests_json rq = Returns (JDict items) ->
         assoc "ok" items = Some flag ->
         truthy flag = true ->
         assoc "result" items = None ->
         get_chat_type token requests_json chat = Raises (KeyError "result")).
Proof.
  intros rq. unfold get_chat_type, get_chat_info, chat_call, api_call.
  fold rq. repeat split.
  - intros e -> He. simpl. rewrite He. reflexivity.
  - intros items flag -> Hok Hf. simpl. rewrite Hok, Hf. reflexivity.
  - intros items flag chat_data -> Hok Hf Hres. simpl.
    rewrite Hok, Hf, Hres. reflexivity.
  - intros items flag -> Hok Hf Hres. simpl.
    rewrite Hok, Hf, Hres. reflexivity.
Qed.

Lemma get_chat_type_outcomes_witness :
  get_chat_type "TOKEN" (down (RequestException "Connection refused"))
                (ChatIdStr "-1001") = Returns JNull
  /\ get_chat_type "TOKEN"
       (answering (JDict [("ok", JBool true);
                          ("result", JDict [("id", JInt (-1001));
                                            ("type", JStr "supergroup")])]))
       (ChatIdStr "-1001") = Returns (JStr "supergroup")
  /\ get_chat_type "TOKEN" (answering (JDict [("ok", JBool true)]))
                   (ChatIdStr "-1001") = Raises (KeyError "result").
Proof.
  split; [| split].
  - apply (proj1 (get_chat_type_outcomes
                    "TOKEN" (down (RequestException "Connection refused"))
                    (ChatIdStr "-1001"))
                 (RequestException "Connection refused"));
      reflexivity.
  - apply (proj1 (proj2 (proj2 (get_chat_type_outcomes
                                  "TOKEN" (answering _) (ChatIdStr "-1001"))))
                 [("ok", JBool true);
                  ("result", JDict [("id", JInt (-1001));
                                    ("type", JStr "supergroup")])]
                 (JBool true)
                 [("id", JInt (-1001)); ("type", JStr "supergroup")]);
      reflexivity.
  - apply (proj2 (proj2 (proj2 (get_chat_type_outcomes
                                  "TOKEN" (answering _) (ChatIdStr "-1001"))))
                 [("ok", JBool true)] (JBool true));
      reflexivity.
Defined.

(** X10. [get_latest_message_id] gives [None] when the probe message
    cannot be sent.  When it is sent, its id is returned whether or not
    the probe could then be deleted: a failure of the delete request
    leaves no mark on the result.  The delete request is the one
    [delete_message] makes for that id, the id from which the bulk delete
    of the menu then starts. *)
Theorem get_latest_message_id_outcomes
        (token : string) (requests_json : request -> outcome json)
        (form_str : json -> string) (chat : ChatId) :
  let send_rq := {| verb := POST; url := base_url token ++ "/sendMessage";
                    data := [("chat_id", str_of_chat_id chat); ("text", ".")];
                    upload := None |} in
  (forall e, requests_json send_rq = Raises e -> is_Exception e = true ->
             get_latest_message_id token requests_json form_str chat
             = Returns JNull)
  /\ (forall items flag sent message_id,
         requests_json send_rq = Returns (JDict items) ->
         assoc "ok" items = Some flag ->
         truthy flag = true ->
         assoc "result" items = Some (JDict sent) ->
         assoc "message_id" sent = Some message_id ->
         only_Exceptions
           (requests_json (probe_delete_request token form_str chat
                                                message_id)) ->
         get_latest_message_id token requests_json form_str chat
         = Returns message_id)
  /\ (forall n : Z,
         form_str (JInt n) = PyStr.str_of_int n ->
         api_call requests_json
                  (probe_delete_request token form_str chat (JInt n))
         = delete_message token requests_json chat n
         /\ forall count, 0 < count ->
              exists rest,
                delete_messages_bulk chat n count
                = {| del_chat_id := chat; del_message_id := n |} :: rest).
Proof.
  intros send_rq. unfold get_latest_message_id, send_message, api_call.
  fold send_rq. repeat split.
  - intros e -> He. simpl. rewrite He. reflexivity.
  - intros items flag sent message_id -> Hok Hf Hres Hid Hdel. simpl.
    rewrite Hok, Hf, Hres. simpl. rewrite Hid. simpl.
    destruct (requests_json _) as [j | e]; simpl; [reflexivity |].
    simpl in Hdel. now rewrite Hdel.
  - unfold probe_delete_request, delete_message, api_call. now rewrite H.
  - intros count Hcount. unfold delete_messages_bulk, range.
    destruct (Z.to_nat count) as [| k] eqn:Ek; [lia |].
    simpl. rewrite Z.sub_0_r. eauto.
Qed.

Lemma get_latest_message_id_outcomes_witness :
  get_latest_message_id "TOKEN"
    (fun rq => if String.eqb (url rq)
                             "https://api.telegram.org/botTOKEN/sendMessage"
               then Returns (JDict [("ok", JBool true);
                                    ("result",
                                     JDict [("message_id", JInt 812)])])
               else Raises (RequestException "Read timed out."))
    (fun j => match j with JInt n => PyStr.str_of_int n | _ => "" end)
    (ChatIdStr "-1001")
  = Returns (JInt 812).
Proof.
  apply (proj1 (proj2 (get_latest_message_id_outcomes "TOKEN" _ _ _))
               [("ok", JBool true);
                ("result", JDict [("message_id", JInt 812)])]
               (JBool true) [("message_id", JInt 812)]);
    reflexivity.
Defined.

(** X11. [_delete_single_message] reports a delete request that fails
    in transport as a plain failure.  It reports a deletion only when the
    platform's answer has a truthy [ok], and "too old" only when the
    answer's description is, to the letter, the platform's rejection
    text. *)
Theorem delete_report_follows_answer
        (token : string) (requests_json : request -> outcome json)
        (chat : ChatId) (message_id : Z) :
  let rq := {| verb := POST; url := base_url token ++ "/deleteMessage";
               data := [("chat_id", str_of_chat_id chat);
                        ("message_id", PyStr.str_of_int message_id)];
               upload := None |} in
  (forall e, requests_json rq = Raises e -> is_Exception e = true ->
             _delete_single_message token requests_json chat message_id
             = Returns (Failed message_id))
  /\ (_delete_single_message token requests_json chat message_id
      = Returns (Deleted message_id) ->
      exists items flag,
        requests_json rq = Returns (JDict items)
        /\ assoc "ok" items = Some flag /\ truthy flag = true)
  /\ (_delete_single_message token requests_json chat message_id
      = Returns (TooOld message_id) ->
      exists items,
        requests_json rq = Returns (JDict items)
        /\ assoc "description" items = Some (JStr too_old_description)).
Proof.
  intros rq. unfold _delete_single_message, delete_message, api_call.
  fold rq. repeat split.
  - intros e -> He. simpl. rewrite He. reflexivity.
  - destruct (requests_json rq) as [j | e]; simpl.
    + destruct j; simpl; try discriminate.
      destruct (assoc "ok" items) as [flag |] eqn:Hok; simpl.
      * destruct (truthy flag) eqn:Hf; [eauto |].
        destruct (assoc "description" items) as [d |]; simpl;
          [destruct (json_is_str d too_old_description) |]; discriminate.
      * destruct (assoc "description" items) as [d |]; simpl;
          [destruct (json_is_str d too_old_description) |]; discriminate.
    + destruct (is_Exception e); discriminate.
  - destruct (requests_json rq) as [j | e]; simpl.
    + destruct j; simpl; try discriminate.
      assert (Hd : forall d,
                 (if json_is_str d too_old_description
                  then Returns (TooOld message_id)
                  else Returns (Failed message_id))
                 = Returns (TooOld message_id) ->
                 d = JStr too_old_description).
      { intros d. destruct d; simpl; try discriminate.
        destruct (String.eqb_spec s too_old_description);
          [now subst | discriminate]. }
      destruct (assoc "ok" items) as [flag |]; simpl;
        [destruct (truthy flag); [discriminate |] |];
        (destruct (assoc "description" items) as [d |] eqn:Hdesc; simpl;
         [intros H; apply Hd in H; subst; eauto | discriminate]).
    + destruct (is_Exception e); discriminate.
Qed.

Lemma delete_report_follows_answer_witness :
  _delete_single_message "TOKEN"
    (down (RequestException "Connection refused")) (ChatIdStr "-1001") 499
  = Returns (Failed 499).
Proof.
  apply (proj1 (delete_report_follows_answer
                  "TOKEN" (down (RequestException "Connection refused"))
                  (ChatIdStr "-1001") 499)
               (RequestException "Connection refused"));
    reflexivity.
Defined.

(** ** Bulk operations and uploads *)

Lemma range_nonpositive (count : Z) : count <= 0 -> range count = [].
Proof.
  intros H. unfold range. now replace (Z.to_nat count) with 0%nat by lia.
Qed.

Lemma Permutation_repeat {A : Type} (x : A) (n : nat) (l : list A) :
  Permutation (repeat x n) l -> l = repeat x n.
Proof.
  intros Hp.
  assert (Hlen : List.length l = n)
    by (rewrite <- (Permutation_length Hp); apply repeat_length).
  assert (Hall : Forall (fun y => y = x) l).
  { eapply Permutation_Forall; [exact Hp |].
    apply Forall_forall. intros y Hy. now apply repeat_spec in Hy. }
  subst n. clear Hp. induction Hall as [| y l -> _ IH]; simpl;
    [reflexivity | now rewrite <- IH].
Qed.

(** X12. [spam_messages] starts [count] processes that all make the
    same [send_message] call, so in whatever order they run the platform
    sees that call [count] times.  A count of zero or less starts no
    process at all, in [spam_messages] and in [delete_messages_bulk]
    alike. *)
Theorem spam_sends_the_same_call
        (chat : ChatId) (message : string) (count : Z)
        (calls : list SendCall) :
  Permutation (spam_messages chat message count) calls ->
  calls = repeat (mkSendCall chat message) (Z.to_nat count)
  /\ len calls = Z.max 0 count
  /\ (count <= 0 -> calls = [])
  /\ (forall start, count <= 0 -> delete_messages_bulk chat start count = []).
Proof.
  intros Hp.
  assert (Hspam : spam_messages chat message count
                  = repeat (mkSendCall chat message) (Z.to_nat count)).
  { unfold spam_messages, range. rewrite map_map.
    induction (Z.to_nat count) as [| n IH]; [reflexivity |].
    rewrite seq_S, map_app, IH. simpl.
    now rewrite <- repeat_cons. }
  rewrite Hspam in Hp. apply Permutation_repeat in Hp. subst calls.
  repeat split.
  - unfold len. rewrite repeat_length. lia.
  - intros Hc. now replace (Z.to_nat count) with 0%nat by lia.
  - intros start Hc. unfold delete_messages_bulk.
    now rewrite range_nonpositive.
Qed.

Lemma spam_sends_the_same_call_witness :
  len (spam_messages (ChatIdStr "-1001") "hi" 10) = 10.
Proof.
  exact (proj1 (proj2 (spam_sends_the_same_call
                         (ChatIdStr "-1001") "hi" 10 _
                         (Permutation_refl _)))).
Defined.



(** ** Saving a download *)

Lemma keep_chars (p : ascii -> bool) (s : string) (c : ascii) :
  In c (list_ascii_of_string (PyText.keep p s)) -> p c = true.
Proof.
  induction s as [| a s IH]; simpl; [tauto |].
  destruct (p a) eqn:E; simpl; [| exact IH].
  intros [<- | H]; auto.
Qed.

Lemma keep_all (p : ascii -> bool) (s : string) :
  (forall c, In c (list_ascii_of_string s) -> p c = true) ->
  PyText.keep p s = s.
Proof.
  induction s as [| a s IH]; simpl; intros H; [reflexivity |].
  rewrite (H a) by now left. f_equal. apply IH. intros c Hc. apply H.
  now right.
Qed.

Lemma rstrip_by_chars (q : ascii -> bool) (s : string) (c : ascii) :
  In c (list_ascii_of_string (PyText.rstrip_by q s)) ->
  In c (list_ascii_of_string s).
Proof.
  induction s as [| a s IH]; simpl; [tauto |].
  destruct (PyText.rstrip_by q s) as [| b kept] eqn:E.
  - destruct (q a); simpl; tauto.
  - simpl in *. intros [<- | H]; [now left | right; now apply IH].
Qed.

Lemma rstrip_by_idem (q : ascii -> bool) (s : string) :
  PyText.rstrip_by q (PyText.rstrip_by q s) = PyText.rstrip_by q s.
Proof.
  induction s as [| a s IH]; simpl; [reflexivity |].
  destruct (PyText.rstrip_by q s) as [| b kept] eqn:E.
  - destruct (q a) eqn:Ea; simpl; [reflexivity | now rewrite Ea].
  - simpl in *. now rewrite IH.
Qed.

Lemma safe_filename_chars (filename : string) (c : ascii) :
  In c (list_ascii_of_string (safe_filename filename)) -> safe_char c = true.
Proof.
  unfold safe_filename, PyText.rstrip. intros H.
  apply rstrip_by_chars in H. now apply keep_chars in H.
Qed.

Lemma safe_filename_idem (filename : string) :
  safe_filename (safe_filename filename) = safe_filename filename.
Proof.
  unfold safe_filename at 1. rewrite keep_all.
  - unfold safe_filename, PyText.rstrip. apply rstrip_by_idem.
  - apply safe_filename_chars.
Qed.

Lemma startswith_chars (s : string) (c : ascii) :
  PyStr.startswith s c = true -> In c (list_ascii_of_string s).
Proof.
  destruct s as [| a s]; simpl; [discriminate |].
  intros H. apply Ascii.eqb_eq in H. now left.
Qed.

Lemma endswith_app (a b : string) (c : ascii) :
  b <> "" -> PyText.endswith (a ++ b) c = PyText.endswith b c.
Proof.
  intros Hb. induction a as [| x a IH]; simpl; [reflexivity |].
  rewrite IH. destruct (a ++ b) eqn:E; [| reflexivity].
  destruct a; [simpl in E; contradiction | discriminate].
Qed.

Lemma string_app_assoc (a b c : string) : (a ++ b) ++ c = a ++ (b ++ c).
Proof. induction a as [| x a IH]; simpl; [reflexivity | now rewrite IH]. Qed.

Lemma path_join_plain (a b : string) :
  PyStr.startswith b "/" = false ->
  a <> "" -> PyText.endswith a "/" = false ->
  path_join a b = a ++ "/" ++ b.
Proof.
  intros Hb Ha He. unfold path_join. rewrite Hb, He.
  now replace (String.eqb a "") with false
    by (symmetry; now apply String.eqb_neq).
Qed.

Lemma category_names_plain (category : string) :
  In category category_names ->
  PyStr.startswith category "/" = false
  /\ category <> ""
  /\ PyText.endswith category "/" = false.
Proof.
  unfold category_names. simpl.
  intros H.
  repeat (destruct H as [<- | H];
          [repeat split; (reflexivity || discriminate) |]).
  contradiction.
Qed.

Lemma get_file_category_named (filename : string) :
  In (get_file_category filename) category_names.
Proof.
  unfold get_file_category, category_names.
  destruct (String.eqb filename "").
  - apply in_or_app. right. simpl. tauto.
  - destruct (first_category _ file_categories) as [c |] eqn:E.
    + apply in_or_app. left. eapply first_category_in, E.
    + apply in_or_app. right. simpl. tauto.
Qed.

(** X14. Whatever name the platform or the caller gives to a download,
    the file is written directly inside one of the twelve category
    directories of the download directory: the name it is written under
    is made of letters, digits and the characters [._- ] only, so it has
    no path separator, and sanitising it again leaves it as it is. *)
Theorem downloads_stay_in_their_category_directory
        (token : string) (requests_json : request -> outcome json)
        (requests_get_stream : string -> outcome http_response)
        (format_str : json -> string)
        (download_dir : string) (guess_extension : string -> option string)
        (makedirs : string -> outcome unit)
        (write_chunks : string -> list string -> outcome unit)
        (file_id : string) (filename : option string) (path : string) :
  download_file token requests_json requests_get_stream
    (write_download_body download_dir guess_extension makedirs write_chunks)
    format_str file_id filename
  = Returns (Some path) ->
  exists category name : string,
    In category category_names
    /\ (forall c, In c (list_ascii_of_string name) -> safe_char c = true)
    /\ ~ In "/"%char (list_ascii_of_string name)
    /\ safe_filename name = name
    /\ path = path_join (path_join download_dir category) name
    /\ (download_dir <> "" ->
        PyText.endswith download_dir "/" = false ->
        path = download_dir ++ "/" ++ category ++ "/" ++ name).
Proof.
  unfold download_file.
  destruct (get_file_download_url token requests_json format_str file_id)
    as [[u |] | e]; simpl; try discriminate.
  destruct (String.eqb u ""); [discriminate |].
  destruct (requests_get_stream u) as [response | e]; simpl;
    [| destruct (is_Exception e); discriminate].
  destruct (status_code response =? 200); [| discriminate].
  unfold write_download_body.
  set (name := safe_filename (choose_filename guess_extension response
                                              file_id filename)).
  destruct (makedirs _) as [[] | e]; simpl;
    [| destruct (is_Exception e); discriminate].
  destruct (write_chunks _ _) as [[] | e]; simpl;
    [| destruct (is_Exception e); discriminate].
  intros [= <-].
  assert (Hchars : forall c, In c (list_ascii_of_string name) ->
                             safe_char c = true)
    by (intros c; apply safe_filename_chars).
  assert (Hslash : ~ In "/"%char (list_ascii_of_string name)).
  { intros Hin. apply Hchars in Hin. discriminate Hin. }
  exists (get_file_category name), name.
  pose proof (get_file_category_named name) as Hcat.
  repeat split; auto.
  - apply safe_filename_idem.
  - intros Hdir Hend.
    destruct (category_names_plain _ Hcat) as (Hc1 & Hc2 & Hc3).
    rewrite (path_join_plain download_dir _ Hc1 Hdir Hend).
    rewrite path_join_plain.
    + now rewrite string_app_assoc.
    + destruct (PyStr.startswith name "/") eqn:Es; [| reflexivity].
      apply startswith_chars in Es. contradiction.
    + destruct download_dir; [contradiction | discriminate].
    + rewrite endswith_app; [| destruct (get_file_category name);
                                 [contradiction | discriminate]].
      rewrite (endswith_app "/"); [exact Hc3 | exact Hc2].
Qed.

Lemma downloads_stay_in_their_category_directory_witness :
  exists category name : string,
    In category category_names
    /\ ~ In "/"%char (list_ascii_of_string name)
    /\ "downloads/other/....etcpasswd"
       = "downloads" ++ "/" ++ category ++ "/" ++ name.
Proof.
  destruct (downloads_stay_in_their_category_directory
              "TOKEN"
              (answering
                 (JDict [("ok", JBool true);
                         ("result",
                          JDict [("file_path",
                                  JStr "documents/file_1.bin")])]))
              (fun _ => Returns
                 {| status_code := 200;
                    headers := [("Content-Disposition",
                                 "attachment; filename=../../etc/passwd")];
                    content := ["root:x:0:0"] |})
              (fun j => match j with JStr s => s | _ => "" end)
              "downloads" (fun _ => None)
              (fun _ => Returns tt) (fun _ _ => Returns tt)
              "BQACAgQ" None "downloads/other/....etcpasswd" eq_refl)
    as (category & name & Hcat & _ & Hslash & _ & _ & Hpath).
  exists category, name. repeat split; auto.
  apply Hpath; [discriminate | reflexivity].
Defined.

(** ** File classifier, beyond the claims *)

Lemma ext_in_In (ext : string) (extensions : list string) :
  ext_in ext extensions = true <-> In ext extensions.
Proof.
  unfold ext_in. rewrite existsb_exists. split.
  - intros (x & Hx & He). apply String.eqb_eq in He. now subst.
  - intros H. exists ext. split; [exact H | apply String.eqb_refl].
Qed.

Lemma first_category_listed (ext : string)
      (items : list (string * list string)) (c : string) :
  first_category ext items = Some c ->
  exists extensions, In (c, extensions) items /\ In ext extensions.
Proof.
  induction items as [| [category extensions] rest IH]; simpl;
    [discriminate |].
  destruct (ext_in ext extensions) eqn:E.
  - intros [= <-]. apply ext_in_In in E. eauto.
  - intros H. destruct (IH H) as (exts & Hin & He). eauto.
Qed.

Lemma first_category_unlisted (ext : string)
      (items : list (string * list string)) :
  first_category ext items = None <->
  forall c extensions, In (c, extensions) items -> ~ In ext extensions.
Proof.
  induction items as [| [category extensions] rest IH]; simpl.
  - split; [intros _ c e [] | reflexivity].
  - destruct (ext_in ext extensions) eqn:E.
    + split; [discriminate |]. intros H. exfalso.
      apply ext_in_In in E. exact (H category extensions (or_introl eq_refl) E).
    + rewrite IH. split.
      * intros H c e [[= <- <-] | Hin]; [| exact (H c e Hin)].
        intros He. apply ext_in_In in He. congruence.
      * intros H c e Hin. apply (H c). now right.
Qed.

(** No extension is listed under two categories. *)
Lemma file_categories_unambiguous (ext c : string) (extensions : list string) :
  In (c, extensions) file_categories ->
  In ext extensions ->
  first_category ext file_categories = Some c.
Proof.
  intros Hc He. unfold file_categories in Hc. simpl in Hc.
  repeat (destruct Hc as [Hc | Hc];
          [injection Hc as <- <-; simpl in He;
           repeat (destruct He as [<- | He]; [reflexivity |]);
           contradiction |]).
  contradiction.
Qed.

(** X15. For a non-empty filename the category returned is read off the
    table by the lower-cased final extension alone: the result is a
    category of the table iff that extension is listed under it (no
    extension is listed twice, so the order of the table plays no part),
    it is ["other"] iff the extension is listed nowhere, and it is never
    ["unknown"]. *)
Theorem category_is_read_off_the_table (filename : string) :
  filename <> "" ->
  let ext := PyStr.lower (snd (OsPath.splitext filename)) in
  (forall c : string,
      In c (map fst file_categories) ->
      (get_file_category filename = c <->
       exists extensions,
         In (c, extensions) file_categories /\ In ext extensions))
  /\ (get_file_category filename = "other" <->
      forall c extensions,
        In (c, extensions) file_categories -> ~ In ext extensions)
  /\ get_file_category filename <> "unknown".
Proof.
  intros Hne ext. unfold get_file_category.
  replace (String.eqb filename "") with false
    by (symmetry; now apply String.eqb_neq).
  fold ext.
  assert (Hnames : forall c, In c (map fst file_categories) ->
                             c <> "other" /\ c <> "unknown").
  { intros c Hc. simpl in Hc.
    repeat (destruct Hc as [<- | Hc]; [split; discriminate |]).
    contradiction. }
  destruct (first_category ext file_categories) as [c0 |] eqn:E.
  - pose proof (first_category_in _ _ _ E) as Hc0.
    destruct (Hnames _ Hc0) as [Ho Hu].
    split; [| split; [| exact Hu]].
    + intros c Hc. split.
      * intros <-. now apply first_category_listed.
      * intros (extensions & Hin & He).
        rewrite (file_categories_unambiguous _ _ _ Hin He) in E.
        congruence.
    + split; [contradiction |].
      intros Hnone. apply first_category_unlisted in Hnone. congruence.
  - split; [| split; [| discriminate]].
    + intros c Hc. destruct (Hnames _ Hc) as [Ho _]. split.
      * intros H. now symmetry in H.
      * intros (extensions & Hin & He).
        rewrite (file_categories_unambiguous _ _ _ Hin He) in E.
        discriminate.
    + split; [| reflexivity]. intros _.
      now apply first_category_unlisted.
Qed.

Lemma category_is_read_off_the_table_witness :
  get_file_category "Holiday.Photos/IMG_0001.JPeG" = "image".
Proof.
  apply (proj1 (category_is_read_off_the_table
                  "Holiday.Photos/IMG_0001.JPeG" ltac:(discriminate))
               "image").
  - simpl. tauto.
  - eexists. split; [do 5 right; left; reflexivity |].
    simpl. tauto.
Defined.

(** ** Configuration and start-up *)

Lemma env_get_set (vars : env) (key value other : string) :
  env_get (env_set key value vars) other
  = if String.eqb key other then Some value else env_get vars other.
Proof.
  induction vars as [| [k v] rest IH]; simpl.
  - reflexivity.
  - destruct (String.eqb_spec k key) as [-> | Hk]; simpl.
    + now destruct (String.eqb key other).
    + rewrite IH. destruct (String.eqb_spec k other) as [-> | Ho];
        [| reflexivity].
      now replace (String.eqb key other) with false
        by (symmetry; apply String.eqb_neq; congruence).
Qed.

Lemma read_env_lines_snoc (lines : list string) (raw : string) :
  read_env_lines (lines ++ [raw])
  = match parse_env_line raw with
    | Some (key, value) => env_set key value (read_env_lines lines)
    | None => read_env_lines lines
    end.
Proof. unfold read_env_lines. now rewrite fold_left_app. Qed.

Lemma lstrip_by_length (p : ascii -> bool) (s : string) :
  (String.length (PyText.lstrip_by p s) <= String.length s)%nat.
Proof.
  induction s as [| a s IH]; simpl; [lia |].
  destruct (p a); simpl; lia.
Qed.

Lemma lstrip_by_head (p : ascii -> bool) (a : ascii) (s : string) :
  PyText.lstrip_by p (String a s) = String a s -> p a = false.
Proof.
  simpl. destruct (p a); [| reflexivity].
  intros H. pose proof (lstrip_by_length p s) as Hl.
  rewrite H in Hl. simpl in Hl. lia.
Qed.

Lemma lstrip_by_app (p : ascii -> bool) (a b : string) :
  PyText.lstrip_by p a = a -> a <> "" ->
  PyText.lstrip_by p (a ++ b) = a ++ b.
Proof.
  destruct a as [| x a]; [contradiction |].
  intros H _. apply lstrip_by_head in H. simpl. now rewrite H.
Qed.

Lemma rstrip_by_app (p : ascii -> bool) (a b : string) :
  PyText.rstrip_by p b = b -> b <> "" ->
  PyText.rstrip_by p (a ++ b) = a ++ b.
Proof.
  intros Hb Hne. induction a as [| x a IH]; simpl; [exact Hb |].
  rewrite IH. destruct (a ++ b) eqn:E; [| reflexivity].
  destruct a; [simpl in E; contradiction | discriminate].
Qed.

Lemma rstrip_by_blank_end (p : ascii -> bool) (a b : string) :
  PyText.rstrip_by p b = "" ->
  PyText.rstrip_by p (a ++ b) = PyText.rstrip_by p a.
Proof.
  intros Hb. induction a as [| x a IH]; simpl; [exact Hb |].
  now rewrite IH.
Qed.

Lemma in_chars_app (a b : string) (c : ascii) :
  PyText.in_chars (a ++ b) c = PyText.in_chars a c || PyText.in_chars b c.
Proof.
  induction a as [| x a IH]; simpl; [reflexivity |].
  now rewrite IH, orb_assoc.
Qed.

Lemma split_once_at (c : ascii) (key value : string) :
  PyText.in_chars key c = false ->
  split_once c (key ++ String c value) = Some (key, value).
Proof.
  induction key as [| x key IH]; simpl.
  - intros _. now rewrite Ascii.eqb_refl.
  - intros H. apply orb_false_iff in H as [Hx Hk].
    rewrite Hx, (IH Hk). reflexivity.
Qed.

(** What a well-formed line sets. *)
Lemma parse_env_line_assignment (key value ending : string) :
  trimmed PyText.isspace key ->
  PyStr.startswith key "#" = false ->
  PyText.in_chars key "=" = false ->
  trimmed PyText.isspace value ->
  trimmed (PyText.in_chars (String PyText.double_quote "")) value ->
  trimmed (PyText.in_chars "'") value ->
  PyText.rstrip ending = "" ->
  parse_env_line (key ++ "=" ++ value ++ ending) = Some (key, value).
Proof.
  intros [Hk1 Hk2] Hhash Heq [Hv1 Hv2] [Hd1 Hd2] [Hq1 Hq2] Hend.
  unfold parse_env_line.
  assert (Hline : PyText.strip (key ++ "=" ++ value ++ ending)
                  = key ++ "=" ++ value).
  { unfold PyText.strip.
    replace (key ++ "=" ++ value ++ ending)
      with ((key ++ "=" ++ value) ++ ending)
      by (now rewrite string_app_assoc).
    rewrite rstrip_by_blank_end by exact Hend.
    assert (Hr : PyText.rstrip_by PyText.isspace ("=" ++ value)
                 = "=" ++ value).
    { simpl. rewrite Hv2. now destruct value. }
    rewrite rstrip_by_app; [| exact Hr | discriminate].
    destruct key as [| x key]; [reflexivity |].
    now apply lstrip_by_app. }
  rewrite Hline.
  assert (Hne : String.eqb (key ++ "=" ++ value) "" = false).
  { apply String.eqb_neq. destruct key; discriminate. }
  assert (Hh : PyStr.startswith (key ++ "=" ++ value) "#" = false).
  { destruct key; [reflexivity | exact Hhash]. }
  assert (Hi : PyText.in_chars (key ++ "=" ++ value) "=" = true).
  { rewrite in_chars_app. simpl. now rewrite orb_true_r. }
  rewrite Hne, Hh, Hi. simpl.
  change (key ++ String "=" value) with (key ++ String "="%char value).
  rewrite (split_once_at "=" key value Heq).
  unfold PyText.strip, PyText.strip_chars.
  now rewrite Hk2, Hk1, Hv2, Hv1, Hd2, Hd1, Hq2, Hq1.
Qed.

(** X16. Reading the configuration gives back what a well-formed line
    says: when a line is [key=value] followed by nothing but white space,
    with a key free of [=], not opening with [#], and key and value free
    of surrounding blanks and quotes, the key is set to exactly that
    value (which may itself contain [=]), whatever the lines before it
    say. *)
Theorem env_line_is_read_back
        (lines : list string) (key value ending : string) :
  trimmed PyText.isspace key ->
  PyStr.startswith key "#" = false ->
  PyText.in_chars key "=" = false ->
  trimmed PyText.isspace value ->
  trimmed (PyText.in_chars (String PyText.double_quote "")) value ->
  trimmed (PyText.in_chars "'") value ->
  PyText.rstrip ending = "" ->
  env_get (read_env_lines (lines ++ [(key ++ "=" ++ value ++ ending)%string])%list) key
  = Some value
  /\ load_env_file (Some (lines ++ [(key ++ "=" ++ value ++ ending)%string])%list)
     = inr (env_set key value (read_env_lines lines)).
Proof.
  intros Hk Hh He Hv Hd Hq Hend.
  unfold load_env_file. rewrite read_env_lines_snoc.
  rewrite (parse_env_line_assignment key value ending Hk Hh He Hv Hd Hq Hend).
  split; [| reflexivity].
  rewrite env_get_set. now rewrite String.eqb_refl.
Qed.

Lemma env_line_is_read_back_witness :
  env_get (read_env_lines
             ["TELEGRAM_BOT_TOKEN=old" ++ String (ascii_of_nat 10) "";
              "TELEGRAM_BOT_TOKEN=123:AA=" ++ String (ascii_of_nat 10) ""])
          "TELEGRAM_BOT_TOKEN"
  = Some "123:AA=".
Proof.
  apply (env_line_is_read_back
           ["TELEGRAM_BOT_TOKEN=old" ++ String (ascii_of_nat 10) ""]
           "TELEGRAM_BOT_TOKEN" "123:AA=" (String (ascii_of_nat 10) ""));
    try (split; reflexivity); reflexivity.
Defined.

(** X17. In the configuration file a line that is blank, or opens with
    [#], or has no [=], changes nothing wherever it stands; a line that
    sets a key overrides what earlier lines gave to that key and leaves
    the other keys as they were. *)
Theorem env_lines_skip_and_override (before after : list string)
        (raw : string) :
  ((String.eqb (PyText.strip raw) "" = true
    \/ PyStr.startswith (PyText.strip raw) "#" = true
    \/ PyText.in_chars (PyText.strip raw) "=" = false) ->
   read_env_lines (before ++ raw :: after)%list = read_env_lines (before ++ after)%list)
  /\ (forall key value other,
         parse_env_line raw = Some (key, value) ->
         env_get (read_env_lines (before ++ [raw])%list) other
         = if String.eqb key other then Some value
           else env_get (read_env_lines before) other).
Proof.
  split.
  - intros Hskip.
    assert (Hnone : parse_env_line raw = None).
    { unfold parse_env_line.
      destruct Hskip as [-> | [-> | ->]]; simpl;
        rewrite ?andb_false_r; reflexivity. }
    unfold read_env_lines. rewrite !fold_left_app. simpl.
    now rewrite Hnone.
  - intros key value other Hset.
    rewrite read_env_lines_snoc, Hset. apply env_get_set.
Qed.

Lemma env_lines_skip_and_override_witness :
  read_env_lines ["A=1"; "# TELEGRAM_CHAT_ID=5"; "B=2"]
  = read_env_lines ["A=1"; "B=2"].
Proof.
  apply (proj1 (env_lines_skip_and_override ["A=1"] ["B=2"]
                                            "# TELEGRAM_CHAT_ID=5")).
  right. left. reflexivity.
Defined.

(** X18. [main] enters the menu only when the configuration file exists
    and gives non-empty values to both [TELEGRAM_BOT_TOKEN] and
    [TELEGRAM_CHAT_ID], and the platform answered [getMe] with a truthy
    [ok]; the chat id handed to the menu is the string of the file.
    Without the file the process exits with status 1, and so it does,
    under the "invalid bot token" message, when the connection test
    fails in transport, whatever the token is. *)
Theorem main_startup_gate
        (requests_json : request -> outcome json)
        (makedirs : string -> outcome unit)
        (env_file : option (list string)) :
  (forall token chat,
      main requests_json makedirs env_file = Menu token chat ->
      exists lines chat_id items flag,
        env_file = Some lines
        /\ env_get (read_env_lines lines) "TELEGRAM_BOT_TOKEN" = Some token
        /\ token <> ""
        /\ env_get (read_env_lines lines) "TELEGRAM_CHAT_ID" = Some chat_id
        /\ chat_id <> ""
        /\ chat = ChatIdStr chat_id
        /\ requests_json {| verb := GET; url := base_url token ++ "/getMe";
                            data := []; upload := None |}
           = Returns (JDict items)
        /\ assoc "ok" items = Some flag
        /\ truthy flag = true)
  /\ (env_file = None -> main requests_json makedirs env_file = Exit 1)
  /\ (forall lines token chat_id e,
         env_file = Some lines ->
         env_get (read_env_lines lines) "TELEGRAM_BOT_TOKEN" = Some token ->
         token <> "" ->
         env_get (read_env_lines lines) "TELEGRAM_CHAT_ID" = Some chat_id ->
         chat_id <> "" ->
         makedirs "downloads" = Returns tt ->
         requests_json {| verb := GET; url := base_url token ++ "/getMe";
                          data := []; upload := None |}
         = Raises e ->
         is_Exception e = true ->
         main requests_json makedirs env_file = Exit 1).
Proof.
  split; [| split].
  - intros token chat. unfold main, load_env_file.
    destruct env_file as [lines |]; [| discriminate].
    destruct (env_get (read_env_lines lines) "TELEGRAM_BOT_TOKEN")
      as [tok |] eqn:Htok; [| discriminate].
    destruct (String.eqb_spec tok "") as [| Htne]; [discriminate |].
    destruct (env_get (read_env_lines lines) "TELEGRAM_CHAT_ID")
      as [cid |] eqn:Hcid; [| discriminate].
    destruct (String.eqb_spec cid "") as [| Hcne]; [discriminate |].
    destruct (makedirs "downloads") as [[] | e]; simpl; [| discriminate].
    unfold connection_test, get_bot_info, api_call.
    destruct (requests_json _) as [j | e] eqn:Hrq; simpl.
    + destruct j; simpl; try discriminate.
      destruct (assoc "ok" items) as [flag |] eqn:Hok; simpl;
        [| discriminate].
      destruct (truthy flag) eqn:Hf; [| discriminate].
      match goal with
      | |- match ?o with _ => _ end = _ -> _ =>
          destruct o as [[|] | x]; try discriminate
      end.
      intros [= <- <-].
      exists lines, cid, items, flag. repeat split; auto.
    + destruct (is_Exception e); simpl; discriminate.
  - intros ->. reflexivity.
  - intros lines token chat_id e -> Htok Htne Hcid Hcne Hdir Hrq He.
    unfold main, load_env_file. rewrite Htok, Hcid.
    replace (String.eqb token "") with false
      by (symmetry; now apply String.eqb_neq).
    replace (String.eqb chat_id "") with false
      by (symmetry; now apply String.eqb_neq).
    rewrite Hdir. simpl.
    unfold connection_test, get_bot_info, api_call.
    rewrite Hrq. simpl. rewrite He. reflexivity.
Qed.

Lemma main_startup_gate_witness :
  main (down (RequestException "Connection refused")) (fun _ => Returns tt)
       (Some ["TELEGRAM_BOT_TOKEN=123:AA"; "TELEGRAM_CHAT_ID=-1001"])
  = Exit 1.
Proof.
  apply (proj2 (proj2 (main_startup_gate
                         (down (RequestException "Connection refused"))
                         (fun _ => Returns tt)
                         (Some ["TELEGRAM_BOT_TOKEN=123:AA";
                                "TELEGRAM_CHAT_ID=-1001"])))
               ["TELEGRAM_BOT_TOKEN=123:AA"; "TELEGRAM_CHAT_ID=-1001"]
               "123:AA" "-1001" (RequestException "Connection refused"));
    try reflexivity; discriminate.
Defined.

(** ** Malformed answers and failed downloads *)

(** X19. The capability lookup that opens [get_all_updates] stands
    outside its [try]: when [getMe] is answered with something that is
    not a JSON object, or with an object whose ['result'] is not one,
    [get_all_updates] raises [AttributeError] before any update is
    requested, and [get_complete_message_history] raises with it. *)
Theorem malformed_bot_info_is_not_caught
        (token : string) (requests_json : request -> outcome json)
        (Source : Type)
        (getUpdates :
           Source -> option Z -> option Z -> outcome response * Source)
        (limit start : Z) (src : Source) (j : json) :
  requests_json {| verb := GET; url := base_url token ++ "/getMe";
                   data := []; upload := None |}
  = Returns j ->
  match j with
  | JDict items =>
      match assoc "result" items with
      | Some (JDict _) | None => False
      | Some _ => True
      end
  | _ => True
  end ->
  exists (r : poll_run Source) (msg : string),
    get_all_updates token requests_json getUpdates limit start src = Some r
    /\ returned r = Raises (AttributeError msg)
    /\ trace (final r) = []
    /\ forall chat_filter,
        get_complete_message_history token requests_json getUpdates
          chat_filter limit src
        = Some (Raises (AttributeError msg)).
Proof.
  intros Hrq Hbad.
  assert (Hcap : can_read_all_group_messages token requests_json
                 = Raises (AttributeError "object has no attribute 'get'")).
  { unfold can_read_all_group_messages, get_bot_info, api_call.
    rewrite Hrq. simpl.
    destruct j; try reflexivity.
    simpl. destruct (assoc "result" items) as [res |]; [| contradiction].
    destruct res; try reflexivity. contradiction. }
  assert (Hall : forall lim st,
             get_all_updates token requests_json getUpdates lim st src
             = Some (mkPollRun
                       (Raises (AttributeError "object has no attribute 'get'"))
                       (mkPollState src st [] []))).
  { intros lim st. unfold get_all_updates. now rewrite Hcap. }
  eexists _, _. split; [apply Hall |].
  repeat split.
  intros chat_filter. unfold get_complete_message_history.
  now rewrite Hall.
Qed.

Lemma malformed_bot_info_is_not_caught_witness :
  exists r : poll_run (list Update),
    get_all_updates "TOKEN" (answering (JList [])) queue 100 0 (page 1 3)
    = Some r
    /\ returned r = Raises (AttributeError "object has no attribute 'get'").
Proof.
  destruct (malformed_bot_info_is_not_caught
              "TOKEN" (answering (JList [])) (list Update) queue 100 0
              (page 1 3) (JList []) eq_refl I)
    as (r & msg & Hr & Hret & _).
  exists r. split; [exact Hr |].
  vm_compute in Hr. injection Hr as <-. reflexivity.
Defined.

(** X20. [download_file] answers [None] for each way a download can go
    wrong: no download address (the second request is not even made), a
    download request that fails in transport, a status other than 200
    (the body is not touched), or a file system that refuses the write;
    so the caller cannot tell these apart. *)
Theorem download_file_failures_give_none
        (token : string) (requests_json : request -> outcome json)
        (requests_get_stream : string -> outcome http_response)
        (write_download :
           http_response -> string -> option string -> outcome string)
        (format_str : json -> string)
        (file_id : string) (filename : option string) :
  let result := download_file token requests_json requests_get_stream
                              write_download format_str file_id filename in
  (get_file_download_url token requests_json format_str file_id
   = Returns None -> result = Returns None)
  /\ (forall u e,
         get_file_download_url token requests_json format_str file_id
         = Returns (Some u) ->
         requests_get_stream u = Raises e -> is_Exception e = true ->
         result = Returns None)
  /\ (forall u response,
         get_file_download_url token requests_json format_str file_id
         = Returns (Some u) ->
         requests_get_stream u = Returns response ->
         status_code response <> 200 ->
         result = Returns None)
  /\ (forall u response e,
         get_file_download_url token requests_json format_str file_id
         = Returns (Some u) ->
         requests_get_stream u = Returns response ->
         write_download response file_id filename = Raises e ->
         is_Exception e = true ->
         result = Returns None)
  /\ (forall e,
         requests_json {| verb := GET; url := base_url token ++ "/getFile";
                          data := [("file_id", file_id)]; upload := None |}
         = Raises e ->
         is_Exception e = true ->
         result = Returns None).
Proof.
  intros result. unfold result, download_file.
  split; [| split; [| split; [| split]]].
  - intros ->. reflexivity.
  - intros u e -> Hs He. simpl. destruct (String.eqb u ""); [reflexivity |].
    rewrite Hs. simpl. now rewrite He.
  - intros u response -> Hs Hcode. simpl.
    destruct (String.eqb u ""); [reflexivity |].
    rewrite Hs. simpl.
    now replace (status_code response =? 200) with false
      by (symmetry; now apply Z.eqb_neq).
  - intros u response e -> Hs Hw He. simpl.
    destruct (String.eqb u ""); [reflexivity |].
    rewrite Hs. simpl.
    destruct (status_code response =? 200); [| reflexivity].
    rewrite Hw. simpl. now rewrite He.
  - intros e Hrq He. unfold get_file_download_url. rewrite Hrq.
    simpl. rewrite He. reflexivity.
Qed.

Lemma download_file_failures_give_none_witness :
  download_file "TOKEN"
    (answering (JDict [("ok", JBool true);
                       ("result",
                        JDict [("file_path", JStr "documents/file_1.pdf")])]))
    (fun _ => Returns {| status_code := 404; headers := []; content := [] |})
    (fun _ _ _ => Raises KeyboardInterrupt)
    (fun j => match j with JStr s => s | _ => "" end)
    "BQACAgQ" None
  = Returns None.
Proof.
  apply (proj1 (proj2 (proj2 (download_file_failures_give_none
                                "TOKEN" _ _ _ _ "BQACAgQ" None)))
               "https://api.telegram.org/file/botTOKEN/documents/file_1.pdf"
               {| status_code := 404; headers := []; content := [] |});
    try reflexivity.
  discriminate.
Defined.
